(** * model.py: decoding of architecture strings and the convolution block

    A shallow embedding of [src/model.py]: the classes [ConvolutionBlock]
    and [ModelFromDecoding], the Python built-ins they call on strings
    ([str.split], [in], [int], [float]) and the shape contracts of the
    tensor primitives they compose ([F.pad], [nn.Conv2d], [nn.BatchNorm2d],
    [nn.MaxPool2d], [nn.AvgPool2d], [Tensor.view], [nn.Linear]).

    Tensors are modelled by their shapes (a [list Z]); Python integers are
    [Z]; strings are [string] over ASCII; a raised exception is a value of
    [exn]; the attribute [self.architecture], which [_decode] mutates, is a
    field of an explicit state that survives a raised exception. *)

From Stdlib Require Import ZArith List Bool Ascii String Lia.
From Stdlib Require Import Floats.SpecFloat.
Import ListNotations.

Local Open Scope string_scope.
Local Open Scope list_scope.
Local Open Scope Z_scope.
Set Implicit Arguments.

(* ================================================================== *)
(** * Python built-ins on strings *)
(* ================================================================== *)

Module Py.

(** ** Exceptions *)

(** The checks of the tensor runtime that can reject a call. *)
Inductive torch_check : Type :=
| PadRank               (* F.pad: more padded axes than the tensor has *)
| PadNegativeSize       (* F.pad: a padded axis would have negative size *)
| ConvRank              (* conv2d: input is neither 3-D nor 4-D *)
| ConvNoOutputChannel   (* conv2d: weight has fewer than [groups] rows *)
| ConvChannels (expected got : Z)  (* conv2d: wrong number of input channels *)
| ConvKernelTooLarge    (* conv2d: kernel larger than the padded input *)
| BatchNormChannels     (* BatchNorm2d: channel count differs from num_features *)
| PoolRank              (* pooling: not a 3-D or 4-D tensor with non-empty axes *)
| PoolPad               (* pooling: padding larger than half the kernel *)
| PoolOutputTooSmall    (* pooling: an output axis would be empty *)
| ViewShape             (* Tensor.view: the requested shape does not fit *)
| LinearFeatures        (* Linear: last axis differs from in_features *)
| CannotAllocate.       (* a parameter tensor too large for the memory *)

Inductive exn : Type :=
| ValueError_int (literal : string)    (* int(): invalid literal *)
| ValueError_float (literal : string)  (* float(): could not convert *)
| ValueError_unpack (got : nat)        (* a, b = t with len(t) <> 2 *)
| ValueError_batchnorm_dim             (* BatchNorm2d: expected 4D input *)
| ValueError_batchnorm_size            (* one value per channel in training *)
| IndexError                           (* tuple index out of range *)
| AttributeError                       (* attribute not set yet *)
| TypeError                            (* a size that is no 64-bit integer *)
| RuntimeError (check : torch_check).

Inductive result (A : Type) : Type :=
| Ok (a : A)
| Raise (e : exn).
Arguments Ok {A} a.
Arguments Raise {A} e.

Definition bind {A B} (r : result A) (k : A -> result B) : result B :=
  match r with
  | Ok a => k a
  | Raise e => Raise e
  end.

(** ** Characters *)

(** The characters that [int] and [float] strip at both ends of an
    ASCII argument: tab, line feed, vertical tab, form feed, carriage
    return and space. *)
Definition is_space (c : ascii) : bool :=
  let n := nat_of_ascii c in
  ((9 <=? n)%nat && (n <=? 13)%nat) || Nat.eqb n 32.

Definition is_digit (c : ascii) : bool :=
  let n := nat_of_ascii c in (48 <=? n)%nat && (n <=? 57)%nat.

Definition digit_value (c : ascii) : Z := Z.of_nat (nat_of_ascii c) - 48.

(** Case-insensitive comparison with a lower-case letter. *)
Definition is_letter (lower : ascii) (c : ascii) : bool :=
  Ascii.eqb c lower
  || Nat.eqb (nat_of_ascii c + 32) (nat_of_ascii lower).

(** ** [str.split(sep)] for a one-character separator.

    The result is never empty: the empty string splits into one empty
    token, and [n] separators give [n + 1] tokens. *)
Fixpoint split (sep : ascii) (s : string) : list string :=
  match s with
  | EmptyString => [EmptyString]
  | String c s' =>
      if Ascii.eqb c sep then EmptyString :: split sep s'
      else match split sep s' with
           | [] => [String c EmptyString]
           | t :: ts => String c t :: ts
           end
  end.

(** ** [c in s] for a one-character [c]. *)
Fixpoint contains (c : ascii) (s : string) : bool :=
  match s with
  | EmptyString => false
  | String d s' => Ascii.eqb d c || contains c s'
  end.

(** ** Numeric literals *)

Fixpoint lstrip (l : list ascii) : list ascii :=
  match l with
  | [] => []
  | c :: l' => if is_space c then lstrip l' else l
  end.

Definition strip (l : list ascii) : list ascii :=
  rev (lstrip (rev (lstrip l))).

(** Underscores in a numeric literal: each one must stand between two
    digits; they are removed before the number is read.  [prev] is the
    character before the head of [l] (NUL at the start). *)
Fixpoint remove_underscores (prev : ascii) (l : list ascii)
  : option (list ascii) :=
  match l with
  | [] => if Ascii.eqb prev "_" then None else Some []
  | c :: l' =>
      if Ascii.eqb c "_" then
        if is_digit prev then remove_underscores c l' else None
      else if Ascii.eqb prev "_" && negb (is_digit c) then None
      else option_map (cons c) (remove_underscores c l')
  end.

(** The longest prefix of digits, and the rest. *)
Fixpoint span_digits (l : list ascii) : list ascii * list ascii :=
  match l with
  | c :: l' =>
      if is_digit c then let (ds, r) := span_digits l' in (c :: ds, r)
      else ([], l)
  | [] => ([], [])
  end.

(** The number written by a list of decimal digits. *)
Definition digits_value (ds : list ascii) : Z :=
  fold_left (fun acc c => 10 * acc + digit_value c) ds 0.

(** An optional sign; [true] is minus. *)
Definition take_sign (l : list ascii) : bool * list ascii :=
  match l with
  | c :: l' =>
      if Ascii.eqb c "-" then (true, l')
      else if Ascii.eqb c "+" then (false, l')
      else (false, l)
  | [] => (false, [])
  end.

(** The default of [sys.get_int_max_str_digits()]: [int] refuses a text
    of more digits. *)
Definition max_str_digits : nat := 4300.

(** ** [int(s)] in base 10: optional surrounding whitespace, an optional
    sign, one or more digits (at most [max_str_digits]), single
    underscores between digits.  (Strings are ASCII here, so digits of
    other scripts do not occur.) *)
Definition int (s : string) : result Z :=
  match remove_underscores "000" (strip (list_ascii_of_string s)) with
  | None => Raise (ValueError_int s)
  | Some l =>
      let (neg, l1) := take_sign l in
      match span_digits l1 with
      | ((_ :: _) as ds, []) =>
          if (max_str_digits <? List.length ds)%nat
          then Raise (ValueError_int s)
          else Ok (if neg then - digits_value ds else digits_value ds)
      | _ => Raise (ValueError_int s)
      end
  end.

(** ** [float(s)]

    A Python float is an IEEE-754 binary64 number, here a [spec_float]
    with precision 53 and maximal exponent 1024. *)
Definition prec : Z := 53.
Definition emax : Z := 1024.

(** The binary64 number nearest to [m * 10^e] (ties to even): the
    correctly rounded quotient of the integers [m * 10^max(e,0)] and
    [10^max(-e,0)]. *)
Definition binary64_of_decimal (neg : bool) (m e : Z) : spec_float :=
  match m with
  | Zpos p =>
      SFdiv prec emax
        (S754_finite neg (p * Z.to_pos (10 ^ Z.max e 0)) 0)
        (S754_finite false (Z.to_pos (10 ^ Z.max (- e) 0)) 0)
  | _ => S754_zero neg
  end.

(** [inf], [infinity] and [nan], in any letter case. *)
Definition inf_or_nan (neg : bool) (l : list ascii) : option spec_float :=
  match l with
  | [i; n; f] =>
      if is_letter "i" i && is_letter "n" n && is_letter "f" f
      then Some (S754_infinity neg)
      else if is_letter "n" i && is_letter "a" n && is_letter "n" f
      then Some S754_nan
      else None
  | [i; n; f; i'; n'; i''; t; y] =>
      if is_letter "i" i && is_letter "n" n && is_letter "f" f
         && is_letter "i" i' && is_letter "n" n' && is_letter "i" i''
         && is_letter "t" t && is_letter "y" y
      then Some (S754_infinity neg)
      else None
  | _ => None
  end.

(** The exponent part of a float literal: nothing, or [e] or [E], an
    optional sign and one or more digits up to the end. *)
Definition exponent (l : list ascii) : option Z :=
  match l with
  | [] => Some 0
  | c :: l' =>
      if is_letter "e" c then
        let (neg, l1) := take_sign l' in
        match span_digits l1 with
        | ((_ :: _) as ds, []) =>
            Some (if neg then - digits_value ds else digits_value ds)
        | _ => None
        end
      else None
  end.

(** Optional surrounding whitespace, an optional sign, then [inf],
    [infinity], [nan] or a decimal number: digits with an optional
    point (at least one digit in all) and an optional exponent. *)
Definition float (s : string) : result spec_float :=
  match remove_underscores "000" (strip (list_ascii_of_string s)) with
  | None => Raise (ValueError_float s)
  | Some l =>
      let (neg, l1) := take_sign l in
      match inf_or_nan neg l1 with
      | Some v => Ok v
      | None =>
          let (ip, r1) := span_digits l1 in
          let (fp, r2) :=
            match r1 with
            | c :: r => if Ascii.eqb c "." then span_digits r else ([], r1)
            | [] => ([], r1)
            end in
          match ip ++ fp, exponent r2 with
          | (_ :: _) as ds, Some e =>
              Ok (binary64_of_decimal neg (digits_value ds)
                    (e - Z.of_nat (List.length fp)))
          | _, _ => Raise (ValueError_float s)
          end
      end
  end.

(** The float [0.5], and the comparison [x > y] on floats (false when
    either side is a NaN). *)
Definition half : spec_float := S754_finite false 4503599627370496 (-53).
Definition float_gt (x y : spec_float) : bool := SFltb y x.

(** ** Values of the variable [m] in [_decode] after the conversion;
    [isinstance(m, int)] and [isinstance(m, float)] are matches on the
    constructor. *)
Inductive value : Type :=
| PyInt (n : Z)
| PyFloat (f : spec_float).

End Py.

Import Py.

Notation "x <- c1 ;; c2" := (bind c1 (fun x => c2))
  (at level 61, c1 at next level, right associativity).

(* ================================================================== *)
(** * The tensor primitives, by shape *)
(* ================================================================== *)

(** The tensor library is outside the repository.  Each primitive is
    modelled by the shape it returns and the checks that make it raise
    on shapes; the values stored in a tensor, their element type and
    their placement on a device are not modelled, and the shape rules
    are those of inputs with at least one channel. *)
Module torch.

(** A tensor is its shape; a device is an opaque tag. *)
Definition Tensor : Type := list Z.
Definition device : Type := string.

(** [x.to(device)] moves a tensor and keeps its shape. *)
Definition to (x : Tensor) (d : device) : Tensor := x.

(** [x.shape[i]] *)
Definition shape_at (x : Tensor) (i : nat) : result Z :=
  match nth_error x i with
  | Some d => Ok d
  | None => Raise IndexError
  end.

Definition numel (x : Tensor) : Z := fold_right Z.mul 1 x.

(** [F.pad(x, (left, right, top, bottom))]: the last axis grows by
    [left + right], the one before it by [top + bottom]. *)
Definition pad (x : Tensor) (p : Z * Z * Z * Z) : result Tensor :=
  let '(p_left, p_right, p_top, p_bottom) := p in
  match rev x with
  | w :: h :: lead =>
      if (0 <=? h + p_top + p_bottom) && (0 <=? w + p_left + p_right)
      then Ok (rev lead ++ [h + p_top + p_bottom; w + p_left + p_right])
      else Raise (RuntimeError PadNegativeSize)
  | _ => Raise (RuntimeError PadRank)
  end.

(** Size of one output axis of a sliding window (convolution or
    pooling, dilation 1, floor mode). *)
Definition window_out (size kernel stride padding : Z) : Z :=
  (size + 2 * padding - kernel) / stride + 1.

(** ** [nn.Conv2d(in_channels, out_channels, kernel_size, stride, padding)] *)
Record Conv2d : Type := mkConv2d {
  in_channels : Z;
  out_channels : Z;
  cv_kernel : Z * Z;
  cv_stride : Z * Z;
  cv_padding : Z * Z
}.

(** The checks of a convolution on one image of [ch] channels, in the
    order the runtime makes them: the weight, of shape
    [out_channels, in_channels, kh, kw], must have at least [groups = 1]
    rows; the input must have [in_channels] channels; the padded plane
    must hold the kernel. *)
Definition conv_plane (c : Conv2d) (ch h w : Z) : result (list Z) :=
  let '(kh, kw) := cv_kernel c in
  let '(sh, sw) := cv_stride c in
  let '(ph, pw) := cv_padding c in
  if out_channels c <? 1 then Raise (RuntimeError ConvNoOutputChannel)
  else if negb (ch =? in_channels c)
  then Raise (RuntimeError (ConvChannels (in_channels c) ch))
  else if (h + 2 * ph <? kh) || (w + 2 * pw <? kw)
  then Raise (RuntimeError ConvKernelTooLarge)
  else Ok [out_channels c; window_out h kh sh ph; window_out w kw sw pw].

Definition Conv2d_forward (c : Conv2d) (x : Tensor) : result Tensor :=
  match x with
  | [n; ch; h; w] => r <- conv_plane c ch h w ;; Ok (n :: r)
  | [ch; h; w] => conv_plane c ch h w
  | _ => Raise (RuntimeError ConvRank)
  end.

(** ** [nn.BatchNorm2d(num_features)], in training mode (the mode of a
    freshly built module). *)
Record BatchNorm2d : Type := mkBatchNorm2d { num_features : Z }.

Definition BatchNorm2d_forward (b : BatchNorm2d) (x : Tensor)
  : result Tensor :=
  match x with
  | [n; ch; h; w] =>
      if n * h * w =? 1 then Raise ValueError_batchnorm_size
      else if negb (ch =? num_features b)
      then Raise (RuntimeError BatchNormChannels)
      else Ok x
  | _ => Raise ValueError_batchnorm_dim
  end.

(** ** [nn.ReLU()] keeps the shape. *)
Definition ReLU_forward (x : Tensor) : result Tensor := Ok x.

(** ** [nn.MaxPool2d] and [nn.AvgPool2d] [(kernel_size, stride, padding)] *)
Record Pool2d : Type := mkPool2d {
  pl_kernel : Z * Z;
  pl_stride : Z * Z;
  pl_padding : Z * Z
}.

(** The checks of a pooling on one image: no empty axis, a padding of at
    most half the kernel, a non-empty output. *)
Definition pool_plane (p : Pool2d) (ch h w : Z) : result (list Z) :=
  let '(kh, kw) := pl_kernel p in
  let '(sh, sw) := pl_stride p in
  let '(ph, pw) := pl_padding p in
  if (ch <? 1) || (h <? 1) || (w <? 1) then Raise (RuntimeError PoolRank)
  else if (kh / 2 <? ph) || (kw / 2 <? pw) then Raise (RuntimeError PoolPad)
  else if (window_out h kh sh ph <? 1) || (window_out w kw sw pw <? 1)
  then Raise (RuntimeError PoolOutputTooSmall)
  else Ok [ch; window_out h kh sh ph; window_out w kw sw pw].

Definition Pool2d_forward (p : Pool2d) (x : Tensor) : result Tensor :=
  match x with
  | [n; ch; h; w] => r <- pool_plane p ch h w ;; Ok (n :: r)
  | [ch; h; w] => pool_plane p ch h w
  | _ => Raise (RuntimeError PoolRank)
  end.

(** ** [x.view(-1, dim)]: two axes, the first one inferred.  With
    [dim = 0] the first axis cannot be inferred. *)
Definition view_rows (x : Tensor) (dim : Z) : result Tensor :=
  if dim <=? 0 then Raise (RuntimeError ViewShape)
  else if numel x mod dim =? 0 then Ok [numel x / dim; dim]
  else Raise (RuntimeError ViewShape).

(** ** [nn.Linear(in_features, out_features)] *)
Record Linear : Type := mkLinear { in_features : Z; out_features : Z }.

Definition Linear_forward (l : Linear) (x : Tensor) : result Tensor :=
  match rev x with
  | last :: lead =>
      if last =? in_features l then Ok (rev lead ++ [out_features l])
      else Raise (RuntimeError LinearFeatures)
  | [] => Raise (RuntimeError LinearFeatures)
  end.

(** ** [nn.Softmax(dim)] *)
Record Softmax : Type := mkSoftmax { softmax_dim : Z }.

End torch.

Import torch.

(* ================================================================== *)
(** * class ConvolutionBlock *)
(* ================================================================== *)

Module ConvolutionBlock.

Record t : Type := mk {
  c_in : Z;
  c_out : Z;
  device : torch.device;
  filter_size : Z * Z;
  conv_stride : Z * Z;
  conv : Conv2d;
  bn : BatchNorm2d
}.

Definition __init__ (c_in c_out : Z) (device : torch.device) : t :=
  let filter_size := (3, 3) in
  let conv_stride := (1, 1) in
  {| c_in := c_in;
     c_out := c_out;
     device := device;
     filter_size := filter_size;
     conv_stride := conv_stride;
     conv := mkConv2d c_in c_out filter_size conv_stride (1, 1);
     bn := mkBatchNorm2d c_out |}.

(** The locals of [padding]: [strides = (None, 1, 1)], the filter is
    3 by 3. *)
Definition filter_height : Z := 3.
Definition filter_width : Z := 3.
Definition strides_1 : Z := 1.
Definition strides_2 : Z := 1.

Definition pad_along_height (in_height : Z) : Z :=
  if in_height mod strides_1 =? 0
  then Z.max (filter_height - strides_1) 0
  else Z.max (filter_height - in_height mod strides_1) 0.

Definition pad_along_width (in_width : Z) : Z :=
  if in_width mod strides_2 =? 0
  then Z.max (filter_width - strides_2) 0
  else Z.max (filter_width - in_width mod strides_2) 0.

Definition pad_top (in_height : Z) : Z := pad_along_height in_height / 2.
Definition pad_bottom (in_height : Z) : Z :=
  pad_along_height in_height - pad_top in_height.
Definition pad_left (in_width : Z) : Z := pad_along_width in_width / 2.
Definition pad_right (in_width : Z) : Z :=
  pad_along_width in_width - pad_left in_width.

(** [in_height, in_width = x.shape[2:]] raises unless [x] has exactly
    four axes. *)
Definition padding (self : t) (x : Tensor) : result Tensor :=
  match skipn 2 x with
  | [in_height; in_width] =>
      y <- pad x (pad_left in_width, pad_right in_width,
                  pad_top in_height, pad_bottom in_height) ;;
      Ok (to y (device self))
  | l => Raise (ValueError_unpack (List.length l))
  end.

Definition forward (self : t) (x : Tensor) : result Tensor :=
  let x := to x (device self) in
  x <- padding self x ;;
  let x := to x (device self) in
  out <- Conv2d_forward (conv self) x ;;
  out <- BatchNorm2d_forward (bn self) out ;;
  ReLU_forward out.

End ConvolutionBlock.

(** The modules stored in [self.architecture]. *)
Inductive Layer : Type :=
| Conv (block : ConvolutionBlock.t)
| MaxPool2d (p : Pool2d)
| AvgPool2d (p : Pool2d).

Definition Layer_forward (l : Layer) (x : Tensor) : result Tensor :=
  match l with
  | Conv block => ConvolutionBlock.forward block x
  | MaxPool2d p => Pool2d_forward p x
  | AvgPool2d p => Pool2d_forward p x
  end.

(** The forward pass of [nn.Sequential] over the layers, in list order. *)
Fixpoint Sequential_forward (layers : list Layer) (x : Tensor)
  : result Tensor :=
  match layers with
  | [] => Ok x
  | l :: layers' => y <- Layer_forward l x ;; Sequential_forward layers' y
  end.

(* ================================================================== *)
(** * class ModelFromDecoding *)
(* ================================================================== *)

Module ModelFromDecoding.

(** The attributes of the object; [softmax] and [net] are set only
    after [_decode] has returned. *)
Record t : Type := mk {
  device : torch.device;
  architecture : list Layer;
  enc : string;
  kernel_size : Z * Z;
  pool_stride : Z * Z;
  softmax : option Softmax;
  net : option (list Layer)
}.

(** [self.architecture.append(layer)] *)
Definition append (self : t) (layer : Layer) : t :=
  {| device := device self;
     architecture := architecture self ++ [layer];
     enc := enc self;
     kernel_size := kernel_size self;
     pool_stride := pool_stride self;
     softmax := softmax self;
     net := net self |}.

(** [m = float(m) if '.' in m else int(m)] *)
Definition convert (m : string) : result value :=
  if contains "." m then f <- float m ;; Ok (PyFloat f)
  else n <- int m ;; Ok (PyInt n).

(** One turn of the loop of [_decode] on the token [m]; the state is the
    object and the local [prev]. *)
Definition decode_token (self : t) (prev : Z) (m : string)
  : t * result Z :=
  if String.eqb m "-" then (self, Ok prev)
  else
    match convert m with
    | Raise e => (self, Raise e)
    | Ok v =>
        let '(self, prev) :=
          match v with
          | PyInt n =>
              let conv := ConvolutionBlock.__init__ prev n (device self) in
              (append self (Conv conv), n)
          | PyFloat _ => (self, prev)
          end in
        let self :=
          match v with
          | PyFloat f =>
              let pool :=
                if float_gt f half
                then MaxPool2d (mkPool2d (kernel_size self)
                                  (pool_stride self) (1, 1))
                else AvgPool2d (mkPool2d (kernel_size self)
                                  (pool_stride self) (1, 1)) in
              append self pool
          | PyInt _ => self
          end in
        (self, Ok prev)
    end.

(** The [for] loop: the first token that raises ends it, and the object
    keeps what was appended before. *)
Fixpoint decode_loop (self : t) (prev : Z) (ms : list string)
  : t * result Z :=
  match ms with
  | [] => (self, Ok prev)
  | m :: ms' =>
      match decode_token self prev m with
      | (self', Ok prev') => decode_loop self' prev' ms'
      | (self', Raise e) => (self', Raise e)
      end
  end.

(** The object once the stem has been appended. *)
Definition with_stem (self : t) : t :=
  append self (Conv (ConvolutionBlock.__init__ 3 16 (device self))).

Definition _decode (self : t) : t * result unit :=
  let prev := 16 in
  let conv := ConvolutionBlock.__init__ 3 prev (device self) in
  let self := append self (Conv conv) in
  match decode_loop self prev (split "-" (enc self)) with
  | (self, Ok _) => (self, Ok tt)
  | (self, Raise e) => (self, Raise e)
  end.

(** The object when [__init__] calls [self._decode()]. *)
Definition fresh (encoding : string) (device : torch.device) : t :=
  {| device := device;
     architecture := [];
     enc := encoding;
     kernel_size := (2, 2);
     pool_stride := (2, 2);
     softmax := None;
     net := None |}.

Definition __init__ (encoding : string) (device : torch.device)
  : result t :=
  match _decode (fresh encoding device) with
  | (self, Ok _) =>
      Ok {| device := ModelFromDecoding.device self;
            architecture := architecture self;
            enc := enc self;
            kernel_size := kernel_size self;
            pool_stride := pool_stride self;
            softmax := Some (mkSoftmax 0);
            net := Some (architecture self) |}
  | (_, Raise e) => Raise e
  end.

(** [x.shape[-1]] *)
Definition shape_last (x : Tensor) : result Z :=
  match rev x with
  | d :: _ => Ok d
  | [] => Raise IndexError
  end.

Definition forward (self : t) (x : Tensor) : result Tensor :=
  match net self with
  | None => Raise AttributeError
  | Some net =>
      x <- Sequential_forward net x ;;
      let x := to x (device self) in
      d1 <- shape_at x 1 ;;
      d2 <- shape_at x 2 ;;
      d3 <- shape_at x 3 ;;
      let dim := d1 * d2 * d3 in
      x <- view_rows x dim ;;
      let x := to x (device self) in
      k <- shape_last x ;;
      let fc := mkLinear k 10 in
      y <- Linear_forward fc x ;;
      ReLU_forward y
  end.

End ModelFromDecoding.

Import ModelFromDecoding.

(* ================================================================== *)
(** * Decoding with a runtime that can refuse to build a block *)
(* ================================================================== *)

(** [ConvolutionBlock.__init__] above always returns.  The real
    constructor builds the parameter tensors of [nn.Conv2d] and
    [nn.BatchNorm2d] and raises when it cannot: a width that is no
    64-bit integer, or tensors too large for the memory that is left.
    Which widths those are depends on the machine and on what the object
    already holds, so it is a parameter here: [construct layers c_in c_out]
    is [None] when the constructor returns on an object that holds
    [layers], and [Some e] when it raises [e].  The definitions follow
    [ModelFromDecoding] line by line, with the constructor consulted
    before a block is appended. *)
Module WithRuntime.

Section Runtime.

Variable construct : list Layer -> Z -> Z -> option exn.

Definition decode_token (self : t) (prev : Z) (m : string)
  : t * result Z :=
  if String.eqb m "-" then (self, Ok prev)
  else
    match convert m with
    | Raise e => (self, Raise e)
    | Ok (PyInt n) =>
        match construct (architecture self) prev n with
        | Some e => (self, Raise e)
        | None =>
            let conv := ConvolutionBlock.__init__ prev n (device self) in
            (append self (Conv conv), Ok n)
        end
    | Ok (PyFloat f) =>
        let pool :=
          if float_gt f half
          then MaxPool2d (mkPool2d (kernel_size self)
                            (pool_stride self) (1, 1))
          else AvgPool2d (mkPool2d (kernel_size self)
                            (pool_stride self) (1, 1)) in
        (append self pool, Ok prev)
    end.

Fixpoint decode_loop (self : t) (prev : Z) (ms : list string)
  : t * result Z :=
  match ms with
  | [] => (self, Ok prev)
  | m :: ms' =>
      match decode_token self prev m with
      | (self', Ok prev') => decode_loop self' prev' ms'
      | (self', Raise e) => (self', Raise e)
      end
  end.

Definition _decode (self : t) : t * result unit :=
  let prev := 16 in
  match construct (architecture self) 3 prev with
  | Some e => (self, Raise e)
  | None =>
      let conv := ConvolutionBlock.__init__ 3 prev (device self) in
      let self := append self (Conv conv) in
      match decode_loop self prev (split "-" (enc self)) with
      | (self, Ok _) => (self, Ok tt)
      | (self, Raise e) => (self, Raise e)
      end
  end.

Definition __init__ (encoding : string) (device : torch.device)
  : result t :=
  match _decode (fresh encoding device) with
  | (self, Ok _) =>
      Ok {| device := ModelFromDecoding.device self;
            architecture := architecture self;
            enc := enc self;
            kernel_size := kernel_size self;
            pool_stride := pool_stride self;
            softmax := Some (mkSoftmax 0);
            net := Some (architecture self) |}
  | (_, Raise e) => Raise e
  end.

End Runtime.

(** A runtime that builds every block whose channel counts are 64-bit
    integers. *)
Definition int64_runtime (layers : list Layer) (c_in c_out : Z)
  : option exn :=
  if (c_in <? 2 ^ 63) && (c_out <? 2 ^ 63) then None else Some TypeError.

End WithRuntime.

(* ================================================================== *)
(** * The values that the forward pass returns *)
(* ================================================================== *)

(** [F.relu] on one float: a negative number becomes zero, a NaN stays
    a NaN, anything else is returned as it is. *)
Definition relu (x : spec_float) : spec_float :=
  if SFltb x (S754_zero false) then S754_zero false else x.

(** [ModelFromDecoding.forward] returns [F.relu(fc(x))], where [fc] is a
    projection with fresh random weights: given the values [fc_out] of
    [fc(x)], one row of 10 per image, the values it returns. *)
Definition forward_values (fc_out : list (list spec_float))
  : list (list spec_float) :=
  map (map relu) fc_out.

(** [v >= 0] on floats (false for a NaN). *)
Definition float_ge_zero (v : spec_float) : bool := SFleb (S754_zero false) v.

(* ================================================================== *)
(** * The error taxonomy of the specification *)
(* ================================================================== *)

Inductive SpecError : Type :=
| DecodeError
| ShapeError
| ChannelMismatchError.

(** How the exceptions of the code fall under it. *)
Definition classify (e : exn) : option SpecError :=
  match e with
  | ValueError_int _ | ValueError_float _ => Some DecodeError
  | ValueError_unpack _ | ValueError_batchnorm_dim
  | ValueError_batchnorm_size | IndexError => Some ShapeError
  | RuntimeError (ConvChannels _ _) | RuntimeError BatchNormChannels =>
      Some ChannelMismatchError
  | RuntimeError CannotAllocate | TypeError => None
  | RuntimeError _ => Some ShapeError
  | AttributeError => None
  end.

Definition raises {A : Type} (r : result A) : Prop := exists e, r = Raise e.

(* ================================================================== *)
(** * Reading of the encoding used by the statements *)
(* ================================================================== *)

(** The values of the tokens without a decimal point that [int] accepts,
    in order. *)
Definition token_integers (ms : list string) : list Z :=
  flat_map
    (fun m => if contains "." m then []
              else match int m with Ok n => [n] | Raise _ => [] end)
    ms.

Definition integer_tokens (encoding : string) : list Z :=
  token_integers (split "-" encoding).

(** The chain [prev -> a, a -> b, b -> c, ...] over [a; b; c; ...]. *)
Fixpoint chain (prev : Z) (widths : list Z) : list (Z * Z) :=
  match widths with
  | [] => []
  | a :: widths' => (prev, a) :: chain a widths'
  end.

(** The [(c_in, c_out)] pairs of the convolution blocks of a layer list,
    in list order. *)
Definition conv_channels (layers : list Layer) : list (Z * Z) :=
  flat_map
    (fun l => match l with
              | Conv b => [(ConvolutionBlock.c_in b, ConvolutionBlock.c_out b)]
              | _ => []
              end)
    layers.

(** The stem and the pooling layers as the specification names them. *)
Definition stem (device : torch.device) : Layer :=
  Conv (ConvolutionBlock.__init__ 3 16 device).

Definition pool_2_2_1 : Pool2d := mkPool2d (2, 2) (2, 2) (1, 1).

(** The pooling layer that [_decode] builds for the float [f]. *)
Definition pool_for (self : t) (f : spec_float) : Layer :=
  if float_gt f half
  then MaxPool2d (mkPool2d (kernel_size self) (pool_stride self) (1, 1))
  else AvgPool2d (mkPool2d (kernel_size self) (pool_stride self) (1, 1)).

Definition is_pool (l : Layer) : bool :=
  match l with
  | Conv _ => false
  | MaxPool2d _ | AvgPool2d _ => true
  end.

(** Every pooling layer of the list has kernel 2, stride 2, padding 1. *)
Definition pools_2_2_1 (layers : list Layer) : Prop :=
  Forall (fun l => match l with
                   | Conv _ => True
                   | MaxPool2d p | AvgPool2d p => p = pool_2_2_1
                   end) layers.

(** Run on a batch of three-channel images of at least one pixel, the
    layers return a four-axis tensor with the same batch size, [prev]
    channels and a non-empty plane. *)
Definition reaches (layers : list Layer) (prev : Z) : Prop :=
  forall N H W, 1 <= H -> 1 <= W ->
    exists H' W', 1 <= H' /\ 1 <= W'
      /\ Sequential_forward layers [N; 3; H; W] = Ok [N; prev; H'; W'].

(** A token whose integer value, if it has one, is a usable width. *)
Definition positive_width (m : string) : Prop :=
  forall n, contains "." m = false -> int m = Ok n -> 1 <= n.

(** The model of the encoding [32-0.9-64], built on the device [cpu],
    and the object of its construction when the loop reaches [0.9]. *)
Definition example_model : t :=
  match __init__ "32-0.9-64" "cpu" with
  | Ok self => self
  | Raise _ => fresh "32-0.9-64" "cpu"
  end.

Definition example_state : t :=
  fst (decode_loop (with_stem (fresh "32-0.9-64" "cpu")) 16 ["32"]).

(** The float that [float("0.9")] returns. *)
Definition float_0_9 : spec_float := S754_finite false 8106479329266893 (-53).

(** The size of a spatial axis after the layers, in list order: a
    convolution block adds 2, a pooling layer with kernel 2, stride 2 and
    padding 1 maps S to floor((S + 2*1 - 2) / 2) + 1. *)
Definition plane_after (layers : list Layer) (size : Z) : Z :=
  fold_left
    (fun s l => if is_pool l then (s + 2 * 1 - 2) / 2 + 1 else s + 2)
    layers size.

(** Run on a batch of three-channel images of at least one pixel, the
    layers return [prev] channels on the plane that [plane_after]
    computes. *)
Definition runs_to (layers : list Layer) (prev : Z) : Prop :=
  forall N H W, 1 <= H -> 1 <= W ->
    Sequential_forward layers [N; 3; H; W]
    = Ok [N; prev; plane_after layers H; plane_after layers W].

(** On every such batch the layers raise at a convolution without output
    channel. *)
Definition stops (layers : list Layer) : Prop :=
  forall N H W, 1 <= H -> 1 <= W ->
    Sequential_forward layers [N; 3; H; W]
    = Raise (RuntimeError ConvNoOutputChannel).

(** The object with [added] appended to its layer list. *)
Definition extend (self : t) (added : list Layer) : t :=
  {| device := device self;
     architecture := architecture self ++ added;
     enc := enc self;
     kernel_size := kernel_size self;
     pool_stride := pool_stride self;
     softmax := softmax self;
     net := net self |}.

(** A float that is neither a NaN nor negative: a zero, a finite number
    or an infinity with the sign bit clear. *)
Definition nonnegative_float (f : spec_float) : bool :=
  match f with
  | S754_zero s | S754_infinity s | S754_finite s _ _ => negb s
  | S754_nan => false
  end.

(** The object of the encoding [8-0.9] after construction, to call
    [_decode] on a second time. *)
Definition example_built : t :=
  match __init__ "8-0.9" "cpu" with
  | Ok self => self
  | Raise _ => fresh "8-0.9" "cpu"
  end.

(** The models of the encodings [8-16] and [0]. *)
Definition example_integers : t :=
  match __init__ "8-16" "cpu" with
  | Ok self => self
  | Raise _ => fresh "8-16" "cpu"
  end.

Definition example_zero : t :=
  match __init__ "0" "cpu" with
  | Ok self => self
  | Raise _ => fresh "0" "cpu"
  end.

(* ================================================================== *)
(** * Lemmas on the built-ins *)
(* ================================================================== *)

Section Builtins.

Lemma split_nonempty (sep : ascii) (s : string) : split sep s <> [].
Proof.
  destruct s as [|c s]; simpl; [discriminate|].
  destruct (Ascii.eqb c sep); [discriminate|].
  destruct (split sep s); discriminate.
Qed.

(** No token of [s.split(sep)] contains the separator. *)
Lemma split_no_sep (sep : ascii) (s m : string) :
  In m (split sep s) -> contains sep m = false.
Proof.
  revert m; induction s as [|c s IH]; simpl; intros m Hin.
  - destruct Hin as [<-|[]]; reflexivity.
  - destruct (Ascii.eqb c sep) eqn:Ec.
    + destruct Hin as [<-|Hin]; [reflexivity|auto].
    + destruct (split sep s) as [|t ts] eqn:Es.
      * destruct Hin as [<-|[]]; simpl; rewrite Ec; reflexivity.
      * destruct Hin as [<-|Hin].
        -- simpl; rewrite Ec; simpl; apply IH; left; reflexivity.
        -- apply IH; right; exact Hin.
Qed.

(** Hence the test [m == '-'] of the loop never holds. *)
Lemma token_not_delimiter (s m : string) :
  In m (split "-" s) -> String.eqb m "-" = false.
Proof.
  intros Hin; apply split_no_sep in Hin.
  destruct (String.eqb_spec m "-") as [->|]; [discriminate Hin|reflexivity].
Qed.

Lemma contains_dot_not_delimiter (m : string) :
  contains "." m = true -> String.eqb m "-" = false.
Proof.
  destruct (String.eqb_spec m "-") as [->|]; [discriminate|reflexivity].
Qed.

Lemma int_raises (m : string) (e : exn) :
  int m = Raise e -> e = ValueError_int m.
Proof.
  unfold int; destruct (remove_underscores _ _); [|congruence].
  destruct (take_sign l) as [neg l1].
  destruct (span_digits l1) as [[|d ds] [|r rs]]; try congruence.
  destruct (max_str_digits <? _)%nat; congruence.
Qed.

Lemma float_raises (m : string) (e : exn) :
  float m = Raise e -> e = ValueError_float m.
Proof.
  unfold float; destruct (remove_underscores _ _); [|congruence].
  destruct (take_sign l) as [neg l1].
  destruct (inf_or_nan neg l1); [congruence|].
  destruct (span_digits l1) as [ip r1].
  destruct (match r1 with [] => _ | c :: r => _ end) as [fp r2].
  destruct (ip ++ fp); [congruence|].
  destruct (exponent r2); congruence.
Qed.

End Builtins.

(* ================================================================== *)
(** * Lemmas on the decoding loop *)
(* ================================================================== *)

Section Decoding.

Lemma convert_raises (m : string) (e : exn) :
  convert m = Raise e -> classify e = Some DecodeError.
Proof.
  unfold convert; destruct (contains "." m).
  - destruct (float m) eqn:E; simpl; [discriminate|].
    intros [= <-]; apply float_raises in E; subst; reflexivity.
  - destruct (int m) eqn:E; simpl; [discriminate|].
    intros [= <-]; apply int_raises in E; subst; reflexivity.
Qed.

(** What a turn of the loop that does not raise has done. *)
Lemma decode_token_ok (self self' : t) (prev prev' : Z) (m : string) :
  decode_token self prev m = (self', Ok prev') ->
  (m = "-" /\ self' = self /\ prev' = prev)
  \/ (contains "." m = false /\ exists n, int m = Ok n
      /\ self' = append self
                   (Conv (ConvolutionBlock.__init__ prev n (device self)))
      /\ prev' = n)
  \/ (contains "." m = true /\ exists f, float m = Ok f
      /\ self' = append self (pool_for self f) /\ prev' = prev).
Proof.
  unfold decode_token, convert.
  destruct (String.eqb_spec m "-") as [->|Hne].
  - intros [= <- <-]; left; auto.
  - destruct (contains "." m) eqn:Hdot.
    + destruct (float m) as [f|e]; simpl; [|discriminate].
      intros [= <- <-]; right; right; split; [reflexivity|].
      exists f; repeat split.
    + destruct (int m) as [n|e]; simpl; [|discriminate].
      intros [= <- <-]; right; left; split; [reflexivity|].
      exists n; repeat split.
Qed.

(** A turn that raises leaves the object as it was. *)
Lemma decode_token_raise (self self' : t) (prev : Z) (m : string) (e : exn) :
  decode_token self prev m = (self', Raise e) ->
  self' = self /\ convert m = Raise e /\ String.eqb m "-" = false.
Proof.
  unfold decode_token.
  destruct (String.eqb m "-"); [discriminate|].
  destruct (convert m) as [[n|f]|e0]; [discriminate|discriminate|].
  intros [= <- <-]; auto.
Qed.

Lemma decode_token_of_raise (self : t) (prev : Z) (m : string) (e : exn) :
  String.eqb m "-" = false -> convert m = Raise e ->
  decode_token self prev m = (self, Raise e).
Proof.
  intros Hne Hc; unfold decode_token; rewrite Hne, Hc; reflexivity.
Qed.

(** An invariant of the object and of [prev] that every turn keeps
    holds when the loop ends normally. *)
Lemma decode_loop_invariant (P : t -> Z -> Prop) (Q : string -> Prop) :
  (forall self prev m self' prev',
      P self prev -> Q m ->
      decode_token self prev m = (self', Ok prev') -> P self' prev') ->
  forall ms self prev self' prev',
    Forall Q ms -> P self prev ->
    decode_loop self prev ms = (self', Ok prev') -> P self' prev'.
Proof.
  intros Hstep ms; induction ms as [|m ms IH];
    intros self prev self' prev' HQ HP; simpl.
  - intros [= <- <-]; exact HP.
  - inversion HQ as [|? ? Hm Hms]; subst.
    destruct (decode_token self prev m) as [self1 [prev1|e]] eqn:E;
      [|discriminate].
    intros Hloop; eapply IH; [exact Hms| |exact Hloop].
    eapply Hstep; eauto.
Qed.

(** The fields other than [architecture] never change. *)
Lemma decode_loop_fields (ms : list string) (self self' : t) (prev : Z)
      (r : result Z) :
  decode_loop self prev ms = (self', r) ->
  device self' = device self /\ kernel_size self' = kernel_size self
  /\ pool_stride self' = pool_stride self /\ enc self' = enc self.
Proof.
  revert self prev; induction ms as [|m ms IH]; intros self prev; simpl.
  - intros [= <- _]; auto.
  - destruct (decode_token self prev m) as [self1 [prev1|e]] eqn:E.
    + intros Hloop; apply IH in Hloop.
      apply decode_token_ok in E.
      destruct E as [(_ & -> & _)|[(_ & n & _ & -> & _)|(_ & f & _ & -> & _)]];
        exact Hloop.
    + intros [= <- _]; apply decode_token_raise in E.
      destruct E as (-> & _); auto.
Qed.

(** The loop only appends to [self.architecture], also when it
    raises. *)
Lemma decode_loop_extends (ms : list string) (self self' : t) (prev : Z)
      (r : result Z) :
  decode_loop self prev ms = (self', r) ->
  exists added, architecture self' = architecture self ++ added.
Proof.
  revert self prev; induction ms as [|m ms IH]; intros self prev; simpl.
  - intros [= <- _]; exists []; symmetry; apply app_nil_r.
  - destruct (decode_token self prev m) as [self1 [prev1|e]] eqn:E.
    + intros Hloop; apply IH in Hloop; destruct Hloop as [added Hadd].
      apply decode_token_ok in E.
      destruct E as [(_ & -> & _)|[(_ & n & _ & -> & _)|(_ & f & _ & -> & _)]];
        simpl in Hadd.
      * exists added; exact Hadd.
      * rewrite <- app_assoc in Hadd; eexists; exact Hadd.
      * rewrite <- app_assoc in Hadd; eexists; exact Hadd.
    + intros [= <- _]; apply decode_token_raise in E.
      destruct E as (-> & _); exists []; symmetry; apply app_nil_r.
Qed.

Lemma conv_channels_app (a b : list Layer) :
  conv_channels (a ++ b) = conv_channels a ++ conv_channels b.
Proof. apply flat_map_app. Qed.

(** Channel threading: the blocks appended by the loop form the chain
    that starts at [prev] and follows the integer tokens. *)
Lemma decode_loop_chain (ms : list string) (self self' : t)
      (prev prev' : Z) :
  decode_loop self prev ms = (self', Ok prev') ->
  conv_channels (architecture self') =
  conv_channels (architecture self) ++ chain prev (token_integers ms).
Proof.
  revert self prev; induction ms as [|m ms IH]; intros self prev; simpl.
  - intros [= <- _]; symmetry; apply app_nil_r.
  - destruct (decode_token self prev m) as [self1 [prev1|e]] eqn:E;
      [|discriminate].
    intros Hloop; apply IH in Hloop; rewrite Hloop; clear Hloop IH.
    apply decode_token_ok in E.
    destruct E as [(-> & -> & ->)
                  |[(Hdot & n & Hn & -> & ->)|(Hdot & f & Hf & -> & ->)]].
    + reflexivity.
    + rewrite Hdot, Hn; simpl.
      rewrite conv_channels_app, <- app_assoc; reflexivity.
    + rewrite Hdot; simpl.
      rewrite conv_channels_app; unfold pool_for.
      destruct (float_gt f half); simpl; rewrite app_nil_r; reflexivity.
Qed.

(** What a successful construction has run. *)
Lemma init_ok (encoding : string) (dev : torch.device) (self : t) :
  __init__ encoding dev = Ok self ->
  exists self0 prev,
    decode_loop (with_stem (fresh encoding dev)) 16 (split "-" encoding)
    = (self0, Ok prev)
    /\ architecture self = architecture self0
    /\ net self = Some (architecture self0)
    /\ device self = dev.
Proof.
  unfold __init__, _decode; simpl.
  change (append (fresh encoding dev)
            (Conv (ConvolutionBlock.__init__ 3 16 dev)))
    with (with_stem (fresh encoding dev)).
  destruct (decode_loop _ 16 _) as [self0 [prev|e]] eqn:E; [|discriminate].
  intros [= <-]; exists self0, prev; simpl; repeat split.
  apply decode_loop_fields in E; destruct E as (-> & _); reflexivity.
Qed.

End Decoding.

(* ================================================================== *)
(** * Lemmas on shapes *)
(* ================================================================== *)

Section Shapes.

Ltac zcases :=
  repeat match goal with
    | |- context [?a <? ?b] => destruct (Z.ltb_spec a b); try lia
    | |- context [?a <=? ?b] => destruct (Z.leb_spec a b); try lia
    | |- context [?a =? ?b] => destruct (Z.eqb_spec a b); try lia
    end.

Lemma pad_along_height_2 (in_height : Z) :
  ConvolutionBlock.pad_along_height in_height = 2.
Proof.
  unfold ConvolutionBlock.pad_along_height, ConvolutionBlock.strides_1.
  rewrite Z.mod_1_r; reflexivity.
Qed.

Lemma pad_along_width_2 (in_width : Z) :
  ConvolutionBlock.pad_along_width in_width = 2.
Proof.
  unfold ConvolutionBlock.pad_along_width, ConvolutionBlock.strides_2.
  rewrite Z.mod_1_r; reflexivity.
Qed.

Lemma pads_1 (size : Z) :
  ConvolutionBlock.pad_top size = 1 /\ ConvolutionBlock.pad_bottom size = 1
  /\ ConvolutionBlock.pad_left size = 1 /\ ConvolutionBlock.pad_right size = 1.
Proof.
  unfold ConvolutionBlock.pad_bottom, ConvolutionBlock.pad_right,
    ConvolutionBlock.pad_top, ConvolutionBlock.pad_left.
  rewrite pad_along_height_2, pad_along_width_2; repeat split.
Qed.

(** The explicit padding of a four-axis tensor. *)
Lemma padding_shape (self : ConvolutionBlock.t) (N C H W : Z) :
  0 <= H -> 0 <= W ->
  ConvolutionBlock.padding self [N; C; H; W] = Ok [N; C; H + 2; W + 2].
Proof.
  intros HH HW; unfold ConvolutionBlock.padding; simpl skipn.
  destruct (pads_1 H) as (-> & -> & _ & _).
  destruct (pads_1 W) as (_ & _ & -> & ->).
  unfold pad, to; cbn [rev app].
  zcases; cbn [andb rev app bind].
  replace (H + 1 + 1) with (H + 2) by lia.
  replace (W + 1 + 1) with (W + 2) by lia.
  reflexivity.
Qed.

(** Any other number of axes fails at the unpacking of [x.shape[2:]]. *)
Lemma padding_rank (self : ConvolutionBlock.t) (x : Tensor) :
  List.length x <> 4%nat ->
  ConvolutionBlock.padding self x
  = Raise (ValueError_unpack (List.length (skipn 2 x))).
Proof.
  intros Hlen; unfold ConvolutionBlock.padding.
  destruct x as [|a [|b [|c [|d [|e x]]]]]; try reflexivity.
  exfalso; apply Hlen; reflexivity.
Qed.

Lemma window_3_1_1 (size : Z) : window_out (size + 2) 3 1 1 = size + 2.
Proof. unfold window_out; rewrite Z.div_1_r; lia. Qed.

(** Batch normalisation in training mode needs more than one value per
    channel; a plane with an axis of two or more has them. *)
Lemma more_than_one_value (N H W : Z) : 2 <= W -> N * H * W <> 1.
Proof.
  intros HW E; rewrite Z.mul_comm in E.
  apply Z.mul_eq_1 in E; lia.
Qed.

Lemma block_forward_shape (c_in c_out : Z) (dev : torch.device)
      (N H W : Z) :
  1 <= c_out -> 0 <= H -> 0 <= W ->
  ConvolutionBlock.forward (ConvolutionBlock.__init__ c_in c_out dev)
                           [N; c_in; H; W]
  = Ok [N; c_out; H + 2; W + 2].
Proof.
  intros Hc HH HW; unfold ConvolutionBlock.forward, to.
  rewrite padding_shape by assumption.
  cbn [bind ConvolutionBlock.conv ConvolutionBlock.bn
       ConvolutionBlock.__init__ Conv2d_forward].
  unfold conv_plane; cbn [out_channels in_channels cv_kernel cv_stride
                          cv_padding].
  rewrite !window_3_1_1.
  zcases; cbn [negb orb bind].
  unfold BatchNorm2d_forward; cbn [num_features].
  destruct (Z.eqb_spec (N * (H + 2) * (W + 2)) 1) as [E|_];
    [apply more_than_one_value in E; [contradiction|lia]|].
  zcases; reflexivity.
Qed.

(** Whenever the block returns, it returns that shape. *)
Lemma block_forward_inv (c_in c_out : Z) (dev : torch.device)
      (N C H W : Z) (y : Tensor) :
  0 <= H -> 0 <= W ->
  ConvolutionBlock.forward (ConvolutionBlock.__init__ c_in c_out dev)
                           [N; C; H; W] = Ok y ->
  y = [N; c_out; H + 2; W + 2].
Proof.
  intros HH HW; unfold ConvolutionBlock.forward, to.
  rewrite padding_shape by assumption.
  cbn [bind ConvolutionBlock.conv ConvolutionBlock.bn
       ConvolutionBlock.__init__ Conv2d_forward].
  unfold conv_plane; cbn [out_channels in_channels cv_kernel cv_stride
                          cv_padding].
  rewrite !window_3_1_1.
  destruct (c_out <? 1); [discriminate|].
  destruct (negb (C =? c_in)); [discriminate|].
  destruct ((H + 2 + 2 * 1 <? 3) || (W + 2 + 2 * 1 <? 3)); [discriminate|].
  cbn [bind]; unfold BatchNorm2d_forward; cbn [num_features].
  destruct (N * (H + 2) * (W + 2) =? 1); [discriminate|].
  destruct (negb (c_out =? c_out)); [discriminate|].
  cbn [bind ReLU_forward]; intros [= <-]; reflexivity.
Qed.

Lemma block_forward_channels (c_in c_out : Z) (dev : torch.device)
      (N C H W : Z) :
  1 <= c_out -> 0 <= H -> 0 <= W -> C <> c_in ->
  ConvolutionBlock.forward (ConvolutionBlock.__init__ c_in c_out dev)
                           [N; C; H; W]
  = Raise (RuntimeError (ConvChannels c_in C)).
Proof.
  intros Hc HH HW HC; unfold ConvolutionBlock.forward, to.
  rewrite padding_shape by assumption.
  cbn [bind ConvolutionBlock.conv ConvolutionBlock.bn
       ConvolutionBlock.__init__ Conv2d_forward].
  unfold conv_plane; cbn [out_channels in_channels cv_kernel cv_stride
                          cv_padding].
  zcases; reflexivity.
Qed.

Lemma block_forward_rank (self : ConvolutionBlock.t) (x : Tensor) :
  List.length x <> 4%nat ->
  ConvolutionBlock.forward self x
  = Raise (ValueError_unpack (List.length (skipn 2 x))).
Proof.
  intros Hlen; unfold ConvolutionBlock.forward, to.
  rewrite padding_rank by assumption; reflexivity.
Qed.

(** Pooling with kernel 2, stride 2 and padding 1. *)
Lemma pool_forward_shape (N C H W : Z) :
  1 <= C -> 1 <= H -> 1 <= W ->
  Pool2d_forward pool_2_2_1 [N; C; H; W]
  = Ok [N; C; (H + 2 * 1 - 2) / 2 + 1; (W + 2 * 1 - 2) / 2 + 1].
Proof.
  intros HC HH HW; unfold Pool2d_forward, pool_plane, pool_2_2_1.
  cbn [pl_kernel pl_stride pl_padding].
  change (2 / 2) with 1.
  assert (0 <= (H + 2 * 1 - 2) / 2) by (apply Z.div_pos; lia).
  assert (0 <= (W + 2 * 1 - 2) / 2) by (apply Z.div_pos; lia).
  unfold window_out; zcases; reflexivity.
Qed.

Lemma pool_forward_inv (N C H W : Z) (y : Tensor) :
  Pool2d_forward pool_2_2_1 [N; C; H; W] = Ok y ->
  y = [N; C; (H + 2 * 1 - 2) / 2 + 1; (W + 2 * 1 - 2) / 2 + 1].
Proof.
  unfold Pool2d_forward, pool_plane, pool_2_2_1.
  cbn [pl_kernel pl_stride pl_padding]; unfold window_out.
  destruct ((C <? 1) || (H <? 1) || (W <? 1)); [discriminate|].
  destruct ((2 / 2 <? 1) || (2 / 2 <? 1)); [discriminate|].
  destruct (((H + 2 * 1 - 2) / 2 + 1 <? 1) || ((W + 2 * 1 - 2) / 2 + 1 <? 1));
    [discriminate|].
  cbn [bind]; intros [= <-]; reflexivity.
Qed.

Lemma pool_out_positive (size : Z) : 1 <= size -> 1 <= (size + 2 * 1 - 2) / 2 + 1.
Proof. intros Hs; assert (0 <= (size + 2 * 1 - 2) / 2) by (apply Z.div_pos; lia); lia. Qed.

Lemma Sequential_forward_app (a b : list Layer) (x : Tensor) :
  Sequential_forward (a ++ b) x =
  (y <- Sequential_forward a x ;; Sequential_forward b y).
Proof.
  revert x; induction a as [|l a IH]; intros x; simpl; [reflexivity|].
  destruct (Layer_forward l x); simpl; auto.
Qed.

End Shapes.

(* ================================================================== *)
(** * Invariants of the decoded layer list *)
(* ================================================================== *)

Section Invariants.

Lemma positive_widths_tokens (ms : list string) :
  Forall (fun n => 1 <= n) (token_integers ms) -> Forall positive_width ms.
Proof.
  induction ms as [|m ms IH]; intros HF; constructor.
  - intros n Hdot Hn; unfold token_integers in HF; simpl in HF.
    rewrite Hdot, Hn in HF; simpl in HF.
    inversion HF; assumption.
  - apply IH; unfold token_integers in *; simpl in HF.
    apply Forall_app in HF; destruct HF as [_ HF]; exact HF.
Qed.

(** Every turn of the loop keeps the pooling parameters. *)
Lemma decode_loop_pools (ms : list string) (self self' : t)
      (prev prev' : Z) :
  kernel_size self = (2, 2) -> pool_stride self = (2, 2) ->
  pools_2_2_1 (architecture self) ->
  decode_loop self prev ms = (self', Ok prev') ->
  pools_2_2_1 (architecture self').
Proof.
  intros Hk Hs Hp Hloop.
  enough (kernel_size self' = (2, 2) /\ pool_stride self' = (2, 2)
          /\ pools_2_2_1 (architecture self')) as (_ & _ & H) by exact H.
  revert Hloop.
  apply (@decode_loop_invariant
           (fun self _ => kernel_size self = (2, 2)
                          /\ pool_stride self = (2, 2)
                          /\ pools_2_2_1 (architecture self))
           (fun _ => True)); [| |repeat split; assumption].
  - clear; intros self prev m self' prev' (Hk & Hs & Hp) _ Htok.
    apply decode_token_ok in Htok.
    destruct Htok as [(_ & -> & _)
                     |[(_ & n & _ & -> & _)|(_ & f & _ & -> & _)]];
      simpl; repeat split; auto.
    + apply Forall_app; split; [exact Hp|repeat constructor].
    + apply Forall_app; split; [exact Hp|].
      unfold pool_for; rewrite Hk, Hs.
      destruct (float_gt f half); repeat constructor.
  - clear; induction ms; constructor; auto.
Qed.

Lemma reaches_conv (layers : list Layer) (prev n : Z) (dev : torch.device) :
  1 <= n -> reaches layers prev ->
  reaches (layers ++ [Conv (ConvolutionBlock.__init__ prev n dev)]) n.
Proof.
  intros Hn Hr N H W HH HW.
  destruct (Hr N H W HH HW) as (H' & W' & HH' & HW' & Hrun).
  exists (H' + 2), (W' + 2); repeat split; try lia.
  rewrite Sequential_forward_app, Hrun.
  cbn [bind Sequential_forward Layer_forward].
  rewrite block_forward_shape by lia; reflexivity.
Qed.

Lemma reaches_pool (layers : list Layer) (prev : Z) (l : Layer) :
  1 <= prev -> reaches layers prev ->
  l = MaxPool2d pool_2_2_1 \/ l = AvgPool2d pool_2_2_1 ->
  reaches (layers ++ [l]) prev.
Proof.
  intros Hp Hr Hl N H W HH HW.
  destruct (Hr N H W HH HW) as (H' & W' & HH' & HW' & Hrun).
  exists ((H' + 2 * 1 - 2) / 2 + 1), ((W' + 2 * 1 - 2) / 2 + 1).
  split; [apply pool_out_positive; exact HH'|].
  split; [apply pool_out_positive; exact HW'|].
  rewrite Sequential_forward_app, Hrun.
  destruct Hl as [-> | ->]; cbn [bind Sequential_forward Layer_forward];
    rewrite pool_forward_shape by lia; reflexivity.
Qed.

(** With positive widths the loop keeps the layer list runnable. *)
Lemma decode_loop_reaches (ms : list string) (self self' : t)
      (prev prev' : Z) :
  Forall positive_width ms ->
  kernel_size self = (2, 2) -> pool_stride self = (2, 2) ->
  1 <= prev -> reaches (architecture self) prev ->
  decode_loop self prev ms = (self', Ok prev') ->
  1 <= prev' /\ reaches (architecture self') prev'.
Proof.
  intros HQ Hk Hs Hp Hr Hloop.
  enough (kernel_size self' = (2, 2) /\ pool_stride self' = (2, 2)
          /\ 1 <= prev' /\ reaches (architecture self') prev')
    as (_ & _ & H1 & H2) by (split; assumption).
  revert Hloop.
  apply (@decode_loop_invariant
           (fun self prev => kernel_size self = (2, 2)
                             /\ pool_stride self = (2, 2)
                             /\ 1 <= prev
                             /\ reaches (architecture self) prev)
           positive_width); [|exact HQ|repeat split; assumption].
  clear; intros self prev m self' prev' (Hk & Hs & Hp & Hr) Hpos Htok.
  apply decode_token_ok in Htok.
  destruct Htok as [(_ & -> & ->)
                   |[(Hdot & n & Hn & -> & ->)|(_ & f & _ & -> & ->)]].
  - auto.
  - pose proof (Hpos n Hdot Hn) as Hn1.
    cbn [kernel_size pool_stride architecture append].
    repeat split; auto using reaches_conv.
  - cbn [kernel_size pool_stride architecture append].
    repeat split; auto.
    apply reaches_pool; [exact Hp|exact Hr|].
    unfold pool_for, pool_2_2_1; rewrite Hk, Hs.
    destruct (float_gt f half); auto.
Qed.

Lemma reaches_nil_stem (dev : torch.device) :
  reaches [Conv (ConvolutionBlock.__init__ 3 16 dev)] 16.
Proof.
  intros N H W HH HW; exists (H + 2), (W + 2); repeat split; try lia.
  cbn [bind Sequential_forward Layer_forward].
  rewrite block_forward_shape by lia; reflexivity.
Qed.

(** The head: flatten to [N, dim], project to 10 classes. *)
Lemma head_shape (N C H W : Z) :
  1 <= C -> 1 <= H -> 1 <= W ->
  (x <- view_rows [N; C; H; W] (C * H * W) ;;
   k <- shape_last x ;;
   y <- Linear_forward (mkLinear k 10) x ;;
   ReLU_forward y) = Ok [N; 10].
Proof.
  intros HC HH HW; unfold view_rows.
  assert (Hd : 0 < C * H * W) by nia.
  replace (numel [N; C; H; W]) with (N * (C * H * W))
    by (unfold numel; simpl; ring).
  rewrite Z.mod_mul, Z.div_mul by lia.
  destruct (Z.leb_spec (C * H * W) 0); [lia|]; simpl.
  unfold Linear_forward; simpl; rewrite Z.eqb_refl; reflexivity.
Qed.

End Invariants.

(* ================================================================== *)
(** * Properties of the specification *)
(* ================================================================== *)

(** C1 (amended). For every encoding that decodes and whose integer
    tokens are all at least 1, and every input of shape [N, 3, H, W] with
    H and W at least 1, forward evaluation of the decoded model returns a
    tensor of shape [N, 10]. *)
Theorem forward_returns_N_10 (encoding : string) (dev : torch.device)
        (self : t) (N H W : Z) :
  __init__ encoding dev = Ok self ->
  Forall (fun n => 1 <= n) (integer_tokens encoding) ->
  0 <= N -> 1 <= H -> 1 <= W ->
  forward self [N; 3; H; W] = Ok [N; 10].
Proof.
  intros Hinit Hpos _ HH HW.
  apply init_ok in Hinit.
  destruct Hinit as (self0 & prev & Hloop & _ & Hnet & _).
  apply decode_loop_reaches in Hloop;
    [|apply positive_widths_tokens; exact Hpos
     |reflexivity|reflexivity|lia|apply reaches_nil_stem].
  destruct Hloop as (Hprev & Hr).
  destruct (Hr N H W HH HW) as (H' & W' & HH' & HW' & Hrun).
  unfold forward; rewrite Hnet, Hrun.
  cbn [bind to shape_at nth_error].
  apply head_shape; assumption.
Qed.

(** C2. A token with a decimal point that [float] accepts makes the loop
    append a pooling layer with kernel 2x2, stride 2x2 and padding 1x1,
    a max-pooling one if the float is greater than 0.5 and an
    average-pooling one otherwise, and leaves [prev] as it is; the
    encoding "32-0.9-64" decodes to
    [Conv(3->16), Conv(16->32), MaxPool, Conv(32->64)]. *)
Theorem float_token_appends_pool :
  (forall (encoding : string) (dev : torch.device)
          (pre post : list string) (m : string)
          (self : t) (prev : Z) (f : spec_float),
      split "-" encoding = pre ++ m :: post ->
      decode_loop (with_stem (fresh encoding dev)) 16 pre = (self, Ok prev) ->
      contains "." m = true ->
      float m = Ok f ->
      decode_token self prev m
      = (append self (if float_gt f half
                      then MaxPool2d (mkPool2d (2, 2) (2, 2) (1, 1))
                      else AvgPool2d (mkPool2d (2, 2) (2, 2) (1, 1))),
         Ok prev))
  /\ (forall dev : torch.device,
         exists self,
           __init__ "32-0.9-64" dev = Ok self
           /\ architecture self
              = [Conv (ConvolutionBlock.__init__ 3 16 dev);
                 Conv (ConvolutionBlock.__init__ 16 32 dev);
                 MaxPool2d (mkPool2d (2, 2) (2, 2) (1, 1));
                 Conv (ConvolutionBlock.__init__ 32 64 dev)]).
Proof.
  split.
  - intros encoding dev pre post m self prev f _ Hloop Hdot Hf.
    apply decode_loop_fields in Hloop.
    destruct Hloop as (_ & Hk & Hs & _); simpl in Hk, Hs.
    unfold decode_token, convert.
    rewrite (contains_dot_not_delimiter _ Hdot), Hdot, Hf.
    cbn [bind]; rewrite Hk, Hs.
    destruct (float_gt f half); reflexivity.
  - intros dev; eexists; split; reflexivity.
Qed.

(** C3. Whenever decoding succeeds, the first element of the decoded
    layer list is the stem: a convolution block with 3 input channels and
    16 output channels, whatever the encoding holds. *)
Theorem first_layer_is_stem (encoding : string) (dev : torch.device)
        (self : t) :
  __init__ encoding dev = Ok self ->
  exists block rest,
    architecture self = Conv block :: rest
    /\ net self = Some (Conv block :: rest)
    /\ block = ConvolutionBlock.__init__ 3 16 dev
    /\ ConvolutionBlock.c_in block = 3
    /\ ConvolutionBlock.c_out block = 16.
Proof.
  intros Hinit; apply init_ok in Hinit.
  destruct Hinit as (self0 & prev & Hloop & Harch & Hnet & _).
  apply decode_loop_extends in Hloop; destruct Hloop as [added Hadd].
  simpl in Hadd.
  exists (ConvolutionBlock.__init__ 3 16 dev), added.
  rewrite Hnet, Harch, Hadd; repeat split.
Qed.

(** C4. When decoding succeeds on an encoding whose integer tokens are, in
    order, a, b, c, ..., the (in_channels, out_channels) pairs of the
    decoded convolution blocks are, in list order, the stem's 3 -> 16
    followed by exactly the chain 16 -> a, a -> b, b -> c, ...; the
    pooling tokens in between play no part. *)
Theorem conv_blocks_form_chain (encoding : string) (dev : torch.device)
        (self : t) :
  __init__ encoding dev = Ok self ->
  conv_channels (architecture self)
  = (3, 16) :: chain 16 (integer_tokens encoding).
Proof.
  intros Hinit; apply init_ok in Hinit.
  destruct Hinit as (self0 & prev & Hloop & -> & _).
  apply decode_loop_chain in Hloop; exact Hloop.
Qed.

(** C5. For every input spatial size (H, W), the padding step of a
    convolution block computes a total padding of 2 on each axis, split
    1 and 1, so the padded tensor is (H + 2, W + 2); the convolution has
    a 3x3 kernel, stride 1 and its own padding of 1, and the output of
    the block has spatial size exactly (H + 2, W + 2): every tensor it
    returns has that size, and it returns one when the channel count
    matches and the block has an output channel. *)
Theorem block_output_size (c_in c_out : Z) (dev : torch.device)
        (N C H W : Z) :
  0 <= H -> 0 <= W ->
  let block := ConvolutionBlock.__init__ c_in c_out dev in
  ConvolutionBlock.pad_along_height H = 2
  /\ ConvolutionBlock.pad_along_width W = 2
  /\ ConvolutionBlock.pad_top H = 1 /\ ConvolutionBlock.pad_bottom H = 1
  /\ ConvolutionBlock.pad_left W = 1 /\ ConvolutionBlock.pad_right W = 1
  /\ ConvolutionBlock.padding block [N; C; H; W] = Ok [N; C; H + 2; W + 2]
  /\ ConvolutionBlock.conv block = mkConv2d c_in c_out (3, 3) (1, 1) (1, 1)
  /\ (forall y, ConvolutionBlock.forward block [N; C; H; W] = Ok y ->
                y = [N; c_out; H + 2; W + 2])
  /\ (1 <= c_out -> C = c_in ->
      ConvolutionBlock.forward block [N; C; H; W]
      = Ok [N; c_out; H + 2; W + 2]).
Proof.
  intros HH HW block.
  destruct (pads_1 H) as (Ht & Hb & _ & _).
  destruct (pads_1 W) as (_ & _ & Hl & Hr).
  subst block; repeat split; auto.
  - apply pad_along_height_2.
  - apply pad_along_width_2.
  - apply padding_shape; assumption.
  - intros y Hy; apply (block_forward_inv _ _ _ _ _ HH HW Hy).
  - intros Hc ->; apply block_forward_shape; assumption.
Qed.

(** C6. Every pooling layer of a decoded model has kernel 2, stride 2 and
    padding 1, and on an input with spatial size S on an axis its output
    has size floor((S + 2*1 - 2) / 2) + 1 on that axis: every tensor it
    returns has that size, and it returns one on every non-empty
    input. *)
Theorem pooling_output_size (encoding : string) (dev : torch.device)
        (self : t) (layer : Layer) :
  __init__ encoding dev = Ok self ->
  In layer (architecture self) ->
  is_pool layer = true ->
  (layer = MaxPool2d (mkPool2d (2, 2) (2, 2) (1, 1))
   \/ layer = AvgPool2d (mkPool2d (2, 2) (2, 2) (1, 1)))
  /\ (forall (N C H W : Z) (y : Tensor),
         Layer_forward layer [N; C; H; W] = Ok y ->
         y = [N; C; (H + 2 * 1 - 2) / 2 + 1; (W + 2 * 1 - 2) / 2 + 1])
  /\ (forall N C H W : Z,
         1 <= C -> 1 <= H -> 1 <= W ->
         Layer_forward layer [N; C; H; W]
         = Ok [N; C; (H + 2 * 1 - 2) / 2 + 1; (W + 2 * 1 - 2) / 2 + 1]).
Proof.
  intros Hinit Hin Hpool.
  apply init_ok in Hinit.
  destruct Hinit as (self0 & prev & Hloop & Harch & _).
  apply decode_loop_pools in Hloop;
    [|reflexivity|reflexivity|repeat constructor].
  rewrite <- Harch in Hloop.
  unfold pools_2_2_1 in Hloop; rewrite Forall_forall in Hloop.
  specialize (Hloop layer Hin).
  destruct layer as [b|p|p]; [discriminate Hpool| |]; subst p;
    (split; [auto|split;
       [intros N C H W y Hy; apply (pool_forward_inv _ _ _ _ Hy)
       |intros N C H W HC HH HW; apply pool_forward_shape; assumption]]).
Qed.

(** C7. An empty token is not skipped: [m == '-'] does not hold for it
    and [int] rejects it, so decoding the empty string raises after the
    stem has been appended, and so does a doubled delimiter. *)
Theorem empty_token_raises :
  (forall (self : t) (prev : Z),
      decode_token self prev "" = (self, Raise (ValueError_int "")))
  /\ (forall dev : torch.device,
         _decode (fresh "" dev)
         = (with_stem (fresh "" dev), Raise (ValueError_int ""))
         /\ __init__ "" dev = Raise (ValueError_int ""))
  /\ (forall dev : torch.device,
         __init__ "32--64" dev = Raise (ValueError_int "")).
Proof.
  repeat split.
Qed.

(** With a runtime that builds every block, the loop is the one of
    [ModelFromDecoding]. *)
Lemma runtime_decode_loop_total (ms : list string) (self : t) (prev : Z) :
  WithRuntime.decode_loop (fun _ _ _ => None) self prev ms
  = decode_loop self prev ms.
Proof.
  revert self prev; induction ms as [|m ms IH]; intros self prev; simpl;
    [reflexivity|].
  assert (E : WithRuntime.decode_token (fun _ _ _ => None) self prev m
              = decode_token self prev m).
  { unfold WithRuntime.decode_token, decode_token.
    destruct (String.eqb m "-"); [reflexivity|].
    destruct (convert m) as [[n|f]|e]; reflexivity. }
  rewrite E; destruct (decode_token self prev m) as [self1 [prev1|e]]; auto.
Qed.

(** A turn that raises leaves the object as it was, and raises either
    the error of the conversion or the error of the constructor. *)
Lemma runtime_token_raise (construct : list Layer -> Z -> Z -> option exn)
      (self self' : t) (prev : Z) (m : string) (e : exn) :
  WithRuntime.decode_token construct self prev m = (self', Raise e) ->
  self' = self
  /\ (convert m = Raise e
      \/ exists n, convert m = Ok (PyInt n)
                   /\ construct (architecture self) prev n = Some e).
Proof.
  unfold WithRuntime.decode_token.
  destruct (String.eqb m "-"); [discriminate|].
  destruct (convert m) as [[n|f]|e0].
  - destruct (construct (architecture self) prev n) as [e1|] eqn:E;
      [|discriminate].
    intros [= <- <-]; split; [reflexivity|right; exists n; auto].
  - discriminate.
  - intros [= <- <-]; auto.
Qed.

(** A turn that returns has converted its token. *)
Lemma runtime_token_ok (construct : list Layer -> Z -> Z -> option exn)
      (self self' : t) (prev prev' : Z) (m : string) :
  String.eqb m "-" = false ->
  WithRuntime.decode_token construct self prev m = (self', Ok prev') ->
  (exists v, convert m = Ok v)
  /\ exists added, architecture self' = architecture self ++ added.
Proof.
  intros Hne; unfold WithRuntime.decode_token; rewrite Hne.
  destruct (convert m) as [[n|f]|e0]; [| |discriminate].
  - destruct (construct (architecture self) prev n); [discriminate|].
    intros [= <- _]; split; [eauto|eexists; reflexivity].
  - intros [= <- _]; split; [eauto|eexists; reflexivity].
Qed.

Lemma runtime_loop_extends (construct : list Layer -> Z -> Z -> option exn)
      (ms : list string) (self self' : t) (prev : Z) (r : result Z) :
  Forall (fun m => String.eqb m "-" = false) ms ->
  WithRuntime.decode_loop construct self prev ms = (self', r) ->
  exists added, architecture self' = architecture self ++ added.
Proof.
  revert self prev; induction ms as [|m ms IH]; intros self prev Hne; simpl.
  - intros [= <- _]; exists []; symmetry; apply app_nil_r.
  - inversion Hne as [|? ? Hm Hms]; subst.
    destruct (WithRuntime.decode_token construct self prev m)
      as [self1 [prev1|e]] eqn:E.
    + intros Hloop; destruct (IH _ _ Hms Hloop) as [added Hadd].
      destruct (runtime_token_ok _ _ _ _ Hm E) as (_ & added1 & Hadd1).
      exists (added1 ++ added); rewrite Hadd, Hadd1, app_assoc; reflexivity.
    + intros [= <- _]; apply runtime_token_raise in E.
      destruct E as (-> & _); exists []; symmetry; apply app_nil_r.
Qed.

(** When a token cannot be converted the loop raises, at the first token
    whose turn raises. *)
Lemma runtime_loop_fails (construct : list Layer -> Z -> Z -> option exn)
      (ms : list string) (self : t) (prev : Z) :
  Exists (fun m => String.eqb m "-" = false /\ raises (convert m)) ms ->
  exists pre bad post self' prev' e,
    ms = pre ++ bad :: post
    /\ WithRuntime.decode_loop construct self prev pre = (self', Ok prev')
    /\ WithRuntime.decode_token construct self' prev' bad = (self', Raise e)
    /\ WithRuntime.decode_loop construct self prev ms = (self', Raise e).
Proof.
  revert self prev; induction ms as [|m ms IH]; intros self prev Hex.
  - inversion Hex.
  - simpl; destruct (WithRuntime.decode_token construct self prev m)
      as [self1 [prev1|e]] eqn:E.
    + assert (Hex' : Exists (fun m => String.eqb m "-" = false
                                      /\ raises (convert m)) ms).
      { inversion Hex as [? ? (Hne & e & He)|]; subst; [|assumption].
        unfold WithRuntime.decode_token in E; rewrite Hne, He in E.
        discriminate E. }
      destruct (IH self1 prev1 Hex')
        as (pre & bad & post & self' & prev' & e & -> & Hpre & Hbad & Hall).
      exists (m :: pre), bad, post, self', prev', e; simpl.
      rewrite E; auto.
    + pose proof (runtime_token_raise _ _ _ _ E) as (-> & _).
      exists [], m, ms, self, prev, e; auto.
Qed.

(** When every token converts, the loop returns or raises an error of
    the constructor. *)
Lemma runtime_loop_converts (construct : list Layer -> Z -> Z -> option exn)
      (ms : list string) (self : t) (prev : Z) :
  Forall (fun m => String.eqb m "-" = false) ms ->
  Forall (fun m => exists v, convert m = Ok v) ms ->
  (exists self' prev',
      WithRuntime.decode_loop construct self prev ms = (self', Ok prev'))
  \/ (exists self' e layers a n,
         WithRuntime.decode_loop construct self prev ms = (self', Raise e)
         /\ construct layers a n = Some e).
Proof.
  revert self prev; induction ms as [|m ms IH]; intros self prev Hne Hc;
    simpl; [left; eauto|].
  inversion Hne as [|? ? Hm Hms]; subst.
  inversion Hc as [|? ? [v Hv] Hcs]; subst.
  destruct (WithRuntime.decode_token construct self prev m)
    as [self1 [prev1|e]] eqn:E.
  - apply IH; assumption.
  - right; apply runtime_token_raise in E.
    destruct E as (-> & [He|(n & _ & He)]); [congruence|].
    exists self, e, (architecture self), prev, n; auto.
Qed.

Lemma runtime_loop_ok_converts
      (construct : list Layer -> Z -> Z -> option exn)
      (ms : list string) (self self' : t) (prev prev' : Z) :
  Forall (fun m => String.eqb m "-" = false) ms ->
  WithRuntime.decode_loop construct self prev ms = (self', Ok prev') ->
  Forall (fun m => exists v, convert m = Ok v) ms.
Proof.
  revert self prev; induction ms as [|m ms IH]; intros self prev Hne;
    [constructor|].
  inversion Hne as [|? ? Hm Hms]; subst; simpl.
  destruct (WithRuntime.decode_token construct self prev m)
    as [self1 [prev1|e]] eqn:E; [|discriminate].
  intros Hloop; constructor; [|apply (IH _ _ Hms Hloop)].
  apply (runtime_token_ok _ _ _ _ Hm E).
Qed.

(** C8 (amended). When a token of the encoding is neither an integer nor
    a float literal, decoding raises, at the first token that cannot be
    converted or whose block the runtime cannot build, and with an error
    of the kind DecodeError when it is the conversion that fails; the
    layer list is not rolled back: provided the stem could be built, it
    then holds the stem followed by the layers of the tokens before that
    one. *)
Theorem malformed_token_fails
        (construct : list Layer -> Z -> Z -> option exn)
        (encoding : string) (dev : torch.device) (m : string) :
  construct [] 3 16 = None ->
  In m (split "-" encoding) ->
  raises (int m) -> raises (float m) ->
  exists pre bad post self' prev e,
    split "-" encoding = pre ++ bad :: post
    /\ WithRuntime.decode_loop construct (with_stem (fresh encoding dev)) 16
         pre = (self', Ok prev)
    /\ ((convert bad = Raise e /\ classify e = Some DecodeError)
        \/ exists n, convert bad = Ok (PyInt n)
                     /\ construct (architecture self') prev n = Some e)
    /\ WithRuntime._decode construct (fresh encoding dev) = (self', Raise e)
    /\ WithRuntime.__init__ construct encoding dev = Raise e
    /\ exists rest, architecture self' = stem dev :: rest.
Proof.
  intros Hstem Hin [ei Hi] [ef Hf].
  assert (Hex : Exists (fun m => String.eqb m "-" = false
                                 /\ raises (convert m))
                       (split "-" encoding)).
  { apply Exists_exists; exists m; split; [exact Hin|].
    split; [apply (token_not_delimiter _ _ Hin)|].
    unfold convert, raises; destruct (contains "." m);
      [rewrite Hf|rewrite Hi]; eexists; reflexivity. }
  destruct (runtime_loop_fails construct (with_stem (fresh encoding dev)) 16
              Hex)
    as (pre & bad & post & self' & prev & e & Hsplit & Hpre & Hbad & Hall).
  exists pre, bad, post, self', prev, e.
  assert (Hdec : WithRuntime._decode construct (fresh encoding dev)
                 = (self', Raise e)).
  { unfold WithRuntime._decode; cbn [enc fresh append device architecture].
    rewrite Hstem.
    unfold with_stem in Hall; cbn [enc fresh append device architecture] in Hall.
    rewrite Hall; reflexivity. }
  split; [exact Hsplit|]. split; [exact Hpre|].
  split.
  { apply runtime_token_raise in Hbad.
    destruct Hbad as (_ & [Hc|Hn]); [left|right; exact Hn].
    split; [exact Hc|apply (convert_raises _ Hc)]. }
  split; [exact Hdec|].
  split; [unfold WithRuntime.__init__; rewrite Hdec; reflexivity|].
  assert (Hne : Forall (fun m => String.eqb m "-" = false) pre).
  { apply Forall_forall; intros x Hx.
    apply (token_not_delimiter encoding); rewrite Hsplit.
    apply in_or_app; left; exact Hx. }
  destruct (@runtime_loop_extends construct pre _ _ _ _ Hne Hpre)
    as [added Hadd].
  exists added; exact Hadd.
Qed.

(** C9 (amended). The forward pass of a convolution block raises an error
    of the kind ShapeError whenever its input does not have exactly four
    axes; when the block has at least one output channel it raises one of
    the kind ChannelMismatchError whenever a four-axis input has a
    channel count other than [c_in], and returns a tensor otherwise. *)
Theorem block_forward_cases (c_in c_out : Z) (dev : torch.device) :
  let block := ConvolutionBlock.__init__ c_in c_out dev in
  (forall x : Tensor,
      List.length x <> 4%nat ->
      exists e, ConvolutionBlock.forward block x = Raise e
                /\ classify e = Some ShapeError)
  /\ (forall N C H W : Z,
         1 <= c_out -> 0 <= H -> 0 <= W -> C <> c_in ->
         exists e, ConvolutionBlock.forward block [N; C; H; W] = Raise e
                   /\ classify e = Some ChannelMismatchError)
  /\ (forall N H W : Z,
         1 <= c_out -> 0 <= H -> 0 <= W ->
         exists y, ConvolutionBlock.forward block [N; c_in; H; W] = Ok y).
Proof.
  intros block; repeat split.
  - intros x Hlen; eexists; split;
      [apply block_forward_rank; exact Hlen|reflexivity].
  - intros N C H W Hc HH HW HC; eexists; split;
      [apply block_forward_channels; assumption|reflexivity].
  - intros N H W Hc HH HW; eexists.
    apply block_forward_shape; assumption.
Qed.

(** C10 (amended). Every value that the forward pass returns is the
    image by the rectified-linear activation of a value of the
    projection, and is a NaN or at least 0; it is a NaN exactly when
    that value of the projection is a NaN. *)
Theorem output_values_nonnegative_or_nan (fc_out : list (list spec_float)) :
  (forall row v,
      In row (forward_values fc_out) -> In v row ->
      v = S754_nan \/ float_ge_zero v = true)
  /\ (forall z, relu z = S754_nan <-> z = S754_nan).
Proof.
  assert (Hrelu : forall z, relu z = S754_nan \/ float_ge_zero (relu z) = true).
  { intros z; unfold relu, float_ge_zero.
    destruct z as [s|s| |s m e]; try destruct s; simpl; auto. }
  split.
  - intros row v Hrow Hv; unfold forward_values in Hrow.
    apply in_map_iff in Hrow; destruct Hrow as (row0 & <- & _).
    apply in_map_iff in Hv; destruct Hv as (z & <- & _); apply Hrelu.
  - intros z; unfold relu; split.
    + destruct z as [s|s| |s m e]; try destruct s; simpl;
        (reflexivity || discriminate).
    + intros ->; reflexivity.
Qed.

(* ================================================================== *)
(** * Instances *)
(* ================================================================== *)

(** A control character is not stripped, and a text of more than 4300
    digits is refused. *)
Example control_character_not_stripped :
  raises (int (String (ascii_of_nat 28) "8"))
  /\ raises (float (String (ascii_of_nat 31) "0.9")).
Proof. split; eexists; reflexivity. Qed.

Example long_integer_literal_refused :
  raises (int (string_of_list_ascii (repeat "9"%char 4301)))
  /\ exists n, int (string_of_list_ascii (repeat "9"%char 4300)) = Ok n.
Proof. split; eexists; vm_compute; reflexivity. Qed.

(** On the rounding of literals: a decimal just above one half still
    reads as the float 0.5, and gives an average pooling. *)
Example literal_rounds_to_half :
  float "0.50000000000000001" = Ok half /\ float_gt half half = false.
Proof. split; reflexivity. Qed.

(** C1, the claim as written fails: the encoding "0" decodes, to the
    stem and a block without output channel, and the forward pass of
    that model raises. *)
Lemma zero_width_model_cannot_run :
  exists self,
    __init__ "0" "cpu" = Ok self
    /\ architecture self
       = [Conv (ConvolutionBlock.__init__ 3 16 "cpu");
          Conv (ConvolutionBlock.__init__ 16 0 "cpu")]
    /\ forward self [1; 3; 32; 32] = Raise (RuntimeError ConvNoOutputChannel)
    /\ forward self [1; 3; 32; 32] <> Ok [1; 10].
Proof.
  eexists; split; [reflexivity|].
  split; [reflexivity|].
  split; [reflexivity|discriminate].
Qed.

Lemma forward_returns_N_10_witness :
  __init__ "32-0.9-64" "cpu" = Ok example_model
  /\ Forall (fun n => 1 <= n) (integer_tokens "32-0.9-64")
  /\ forward example_model [1; 3; 32; 32] = Ok [1; 10].
Proof.
  assert (H1 : __init__ "32-0.9-64" "cpu" = Ok example_model)
    by reflexivity.
  assert (H2 : Forall (fun n => 1 <= n) (integer_tokens "32-0.9-64")).
  { change (Forall (fun n => 1 <= n) [32; 64]); repeat constructor; lia. }
  split; [exact H1|split; [exact H2|]].
  apply (@forward_returns_N_10 "32-0.9-64" "cpu" example_model 1 32 32 H1 H2);
    lia.
Defined.

Lemma float_token_appends_pool_witness :
  split "-" "32-0.9-64" = ["32"] ++ "0.9" :: ["64"]
  /\ decode_loop (with_stem (fresh "32-0.9-64" "cpu")) 16 ["32"]
     = (example_state, Ok 32)
  /\ contains "." "0.9" = true
  /\ float "0.9" = Ok float_0_9
  /\ decode_token example_state 32 "0.9"
     = (append example_state (MaxPool2d (mkPool2d (2, 2) (2, 2) (1, 1))),
        Ok 32).
Proof.
  assert (H1 : split "-" "32-0.9-64" = ["32"] ++ "0.9" :: ["64"])
    by reflexivity.
  assert (H2 : decode_loop (with_stem (fresh "32-0.9-64" "cpu")) 16 ["32"]
               = (example_state, Ok 32)) by reflexivity.
  assert (H3 : contains "." "0.9" = true) by reflexivity.
  assert (H4 : float "0.9" = Ok float_0_9) by reflexivity.
  repeat (split; [assumption|]).
  exact (proj1 float_token_appends_pool
           "32-0.9-64" "cpu" ["32"] ["64"] "0.9" example_state 32 float_0_9
           H1 H2 H3 H4).
Defined.

Lemma first_layer_is_stem_witness :
  __init__ "32-0.9-64" "cpu" = Ok example_model
  /\ exists block rest,
      architecture example_model = Conv block :: rest
      /\ net example_model = Some (Conv block :: rest)
      /\ block = ConvolutionBlock.__init__ 3 16 "cpu"
      /\ ConvolutionBlock.c_in block = 3
      /\ ConvolutionBlock.c_out block = 16.
Proof.
  assert (H1 : __init__ "32-0.9-64" "cpu" = Ok example_model)
    by reflexivity.
  split; [exact H1|].
  exact (@first_layer_is_stem "32-0.9-64" "cpu" example_model H1).
Defined.

Lemma conv_blocks_form_chain_witness :
  __init__ "32-0.9-64" "cpu" = Ok example_model
  /\ conv_channels (architecture example_model)
     = (3, 16) :: chain 16 (integer_tokens "32-0.9-64").
Proof.
  assert (H1 : __init__ "32-0.9-64" "cpu" = Ok example_model)
    by reflexivity.
  split; [exact H1|].
  exact (@conv_blocks_form_chain "32-0.9-64" "cpu" example_model H1).
Defined.

Lemma block_output_size_witness :
  (forall y, ConvolutionBlock.forward (ConvolutionBlock.__init__ 3 16 "cpu")
                                      [1; 3; 32; 32] = Ok y ->
             y = [1; 16; 32 + 2; 32 + 2])
  /\ ConvolutionBlock.forward (ConvolutionBlock.__init__ 3 16 "cpu")
                              [1; 3; 32; 32]
     = Ok [1; 16; 32 + 2; 32 + 2].
Proof.
  assert (H1 : 1 <= 16) by lia.
  assert (H2 : 0 <= 32) by lia.
  destruct (@block_output_size 3 16 "cpu" 1 3 32 32 H2 H2)
    as (_ & _ & _ & _ & _ & _ & _ & _ & Hinv & Hok).
  split; [exact Hinv|exact (Hok H1 eq_refl)].
Defined.

Lemma pooling_output_size_witness :
  __init__ "32-0.9-64" "cpu" = Ok example_model
  /\ In (MaxPool2d pool_2_2_1) (architecture example_model)
  /\ Layer_forward (MaxPool2d pool_2_2_1) [1; 32; 36; 36]
     = Ok [1; 32; (36 + 2 * 1 - 2) / 2 + 1; (36 + 2 * 1 - 2) / 2 + 1].
Proof.
  assert (H1 : __init__ "32-0.9-64" "cpu" = Ok example_model)
    by reflexivity.
  assert (H2 : In (MaxPool2d pool_2_2_1) (architecture example_model)).
  { right; right; left; reflexivity. }
  split; [exact H1|split; [exact H2|]].
  destruct (@pooling_output_size "32-0.9-64" "cpu" example_model
              (MaxPool2d pool_2_2_1) H1 H2 eq_refl) as (_ & _ & Hok).
  apply Hok; lia.
Defined.

(** C8, the claim as written fails: decoding "abc" raises, and the layer
    list, empty before the call, holds the stem after it. *)
Lemma malformed_token_mutates_list :
  In "abc" (split "-" "abc")
  /\ raises (int "abc") /\ raises (float "abc")
  /\ architecture (fresh "abc" "cpu") = []
  /\ exists self',
      _decode (fresh "abc" "cpu") = (self', Raise (ValueError_int "abc"))
      /\ architecture self' = [stem "cpu"]
      /\ architecture self' <> architecture (fresh "abc" "cpu").
Proof.
  split; [left; reflexivity|].
  split; [eexists; reflexivity|].
  split; [eexists; reflexivity|].
  split; [reflexivity|].
  eexists; split; [reflexivity|].
  split; [reflexivity|discriminate].
Qed.

Lemma malformed_token_fails_witness :
  WithRuntime.int64_runtime [] 3 16 = None
  /\ In "abc" (split "-" "32-abc")
  /\ raises (int "abc") /\ raises (float "abc")
  /\ exists pre bad post self' prev e,
      split "-" "32-abc" = pre ++ bad :: post
      /\ WithRuntime.decode_loop WithRuntime.int64_runtime
           (with_stem (fresh "32-abc" "cpu")) 16 pre = (self', Ok prev)
      /\ ((convert bad = Raise e /\ classify e = Some DecodeError)
          \/ exists n, convert bad = Ok (PyInt n)
                       /\ WithRuntime.int64_runtime (architecture self')
                            prev n = Some e)
      /\ WithRuntime._decode WithRuntime.int64_runtime (fresh "32-abc" "cpu")
         = (self', Raise e)
      /\ WithRuntime.__init__ WithRuntime.int64_runtime "32-abc" "cpu"
         = Raise e
      /\ exists rest, architecture self' = stem "cpu" :: rest.
Proof.
  assert (H0 : WithRuntime.int64_runtime [] 3 16 = None) by reflexivity.
  assert (H1 : In "abc" (split "-" "32-abc")) by (right; left; reflexivity).
  assert (H2 : raises (int "abc")) by (eexists; reflexivity).
  assert (H3 : raises (float "abc")) by (eexists; reflexivity).
  split; [exact H0|split; [exact H1|split; [exact H2|split; [exact H3|]]]].
  exact (@malformed_token_fails WithRuntime.int64_runtime "32-abc" "cpu"
           "abc" H0 H1 H2 H3).
Defined.

(** A width that is no 64-bit integer: the constructor raises at the
    first token, before the malformed one is read, and the list holds
    the stem alone. *)
Example unbuildable_width_raises_first :
  WithRuntime._decode WithRuntime.int64_runtime
    (fresh "9223372036854775808-abc" "cpu")
  = (with_stem (fresh "9223372036854775808-abc" "cpu"), Raise TypeError).
Proof. reflexivity. Qed.

(** C9, the claim as written fails: a block without output channel
    raises on a four-axis input with the right channel count. *)
Lemma zero_width_block_raises :
  let block := ConvolutionBlock.__init__ 3 0 "cpu" in
  List.length [1; 3; 8; 8] = 4%nat
  /\ ConvolutionBlock.c_in block = 3
  /\ ConvolutionBlock.forward block [1; 3; 8; 8]
     = Raise (RuntimeError ConvNoOutputChannel)
  /\ ~ exists y, ConvolutionBlock.forward block [1; 3; 8; 8] = Ok y.
Proof.
  repeat split; intros [y Hy]; discriminate Hy.
Qed.

Lemma block_forward_cases_witness :
  (exists e, ConvolutionBlock.forward (ConvolutionBlock.__init__ 3 16 "cpu")
                                      [3; 32; 32] = Raise e
             /\ classify e = Some ShapeError)
  /\ (exists e, ConvolutionBlock.forward (ConvolutionBlock.__init__ 3 16 "cpu")
                                         [1; 4; 32; 32] = Raise e
                /\ classify e = Some ChannelMismatchError)
  /\ exists y, ConvolutionBlock.forward (ConvolutionBlock.__init__ 3 16 "cpu")
                                        [1; 3; 32; 32] = Ok y.
Proof.
  assert (H1 : 1 <= 16) by lia.
  assert (H2 : 0 <= 32) by lia.
  assert (H3 : 4 <> 3) by lia.
  assert (H4 : List.length [3; 32; 32] <> 4%nat) by discriminate.
  destruct (block_forward_cases 3 16 "cpu") as (Hrank & Hchan & Hok).
  split; [exact (Hrank [3; 32; 32] H4)|].
  split; [exact (Hchan 1 4 32 32 H1 H2 H2 H3)|].
  exact (Hok 1 32 32 H1 H2 H2).
Defined.

(** C10, the claim as written fails: when the projection gives a NaN the
    forward pass returns it, and a NaN is not at least 0. *)
Lemma nan_output_is_not_nonnegative :
  forward_values [[S754_nan]] = [[S754_nan]]
  /\ In [S754_nan] (forward_values [[S754_nan]])
  /\ In S754_nan [S754_nan]
  /\ float_ge_zero S754_nan = false.
Proof.
  split; [reflexivity|].
  split; [left; reflexivity|].
  split; [left; reflexivity|reflexivity].
Qed.

Lemma output_values_nonnegative_or_nan_witness :
  In [S754_zero false; float_0_9]
     (forward_values [[S754_finite true 1 0; float_0_9]])
  /\ In float_0_9 [S754_zero false; float_0_9]
  /\ (float_0_9 = S754_nan \/ float_ge_zero float_0_9 = true).
Proof.
  assert (H1 : In [S754_zero false; float_0_9]
                  (forward_values [[S754_finite true 1 0; float_0_9]]))
    by (left; reflexivity).
  assert (H2 : In float_0_9 [S754_zero false; float_0_9])
    by (right; left; reflexivity).
  split; [exact H1|split; [exact H2|]].
  exact (proj1 (output_values_nonnegative_or_nan
                  [[S754_finite true 1 0; float_0_9]])
           [S754_zero false; float_0_9] float_0_9 H1 H2).
Defined.

(* ================================================================== *)
(** * Further lemmas on the decoding loop *)
(* ================================================================== *)

Section Tokens.

Lemma tokens_not_delimiter (s : string) :
  Forall (fun m => String.eqb m "-" = false) (split "-" s).
Proof.
  apply Forall_forall; intros m Hin; apply (token_not_delimiter _ _ Hin).
Qed.

(** Each token that is not the delimiter appends one layer, a pooling
    layer exactly when the token holds a decimal point. *)
Lemma decode_loop_kinds (ms : list string) (self self' : t)
      (prev prev' : Z) :
  Forall (fun m => String.eqb m "-" = false) ms ->
  decode_loop self prev ms = (self', Ok prev') ->
  exists added,
    architecture self' = architecture self ++ added
    /\ map is_pool added = map (contains ".") ms.
Proof.
  revert self prev; induction ms as [|m ms IH]; intros self prev Hne; simpl.
  - intros [= <- _]; exists []; split; [symmetry; apply app_nil_r|reflexivity].
  - inversion Hne as [|? ? Hm Hms]; subst.
    destruct (decode_token self prev m) as [self1 [prev1|e]] eqn:E;
      [|discriminate].
    intros Hloop; destruct (IH _ _ Hms Hloop) as (added & Hadd & Hk).
    apply decode_token_ok in E.
    destruct E as [(-> & _)
                  |[(Hdot & n & _ & -> & _)|(Hdot & f & _ & -> & _)]].
    + discriminate Hm.
    + eexists; split;
        [rewrite Hadd; cbn [architecture append];
         rewrite <- app_assoc; reflexivity|].
      simpl; rewrite Hdot, Hk; reflexivity.
    + eexists; split;
        [rewrite Hadd; cbn [architecture append];
         rewrite <- app_assoc; reflexivity|].
      simpl; rewrite Hdot, Hk.
      unfold pool_for; destruct (float_gt f half); reflexivity.
Qed.

(** Every block the loop appends is built by the constructor on the
    device of the object. *)
Lemma decode_loop_blocks (ms : list string) (self self' : t)
      (prev prev' : Z) :
  Forall (fun l => match l with
                   | Conv b => exists a n,
                       b = ConvolutionBlock.__init__ a n (device self)
                   | _ => True
                   end) (architecture self) ->
  decode_loop self prev ms = (self', Ok prev') ->
  Forall (fun l => match l with
                   | Conv b => exists a n,
                       b = ConvolutionBlock.__init__ a n (device self)
                   | _ => True
                   end) (architecture self').
Proof.
  revert self prev; induction ms as [|m ms IH]; intros self prev HF; simpl.
  - intros [= <- _]; exact HF.
  - destruct (decode_token self prev m) as [self1 [prev1|e]] eqn:E;
      [|discriminate].
    intros Hloop.
    assert (Hdev : device self1 = device self
                   /\ Forall (fun l => match l with
                                       | Conv b => exists a n,
                                           b = ConvolutionBlock.__init__
                                                 a n (device self)
                                       | _ => True
                                       end) (architecture self1)).
    { apply decode_token_ok in E.
      destruct E as [(_ & -> & _)
                    |[(_ & n & _ & -> & _)|(_ & f & _ & -> & _)]];
        (split; [reflexivity|]); cbn [architecture append]; auto.
      - apply Forall_app; split; [exact HF|].
        constructor; [exists prev, n; reflexivity|constructor].
      - apply Forall_app; split; [exact HF|].
        constructor; [|constructor].
        unfold pool_for; destruct (float_gt f half); exact I. }
    destruct Hdev as (Hd & HF1).
    rewrite <- Hd in HF1 |- *; apply (IH _ _ HF1 Hloop).
Qed.

Lemma last_cons_default (A : Type) (a : A) (l : list A) (d d' : A) :
  last (a :: l) d = last (a :: l) d'.
Proof.
  revert a; induction l as [|b l IH]; intros a; [reflexivity|].
  change (last (b :: l) d = last (b :: l) d'); apply IH.
Qed.

(** The value of [prev] when the loop ends: the last integer token, or
    the value it started with. *)
Lemma decode_loop_prev (ms : list string) (self self' : t)
      (prev prev' : Z) :
  decode_loop self prev ms = (self', Ok prev') ->
  prev' = last (token_integers ms) prev.
Proof.
  revert self prev; induction ms as [|m ms IH]; intros self prev; simpl.
  - intros [= _ <-]; reflexivity.
  - destruct (decode_token self prev m) as [self1 [prev1|e]] eqn:E;
      [|discriminate].
    intros Hloop; apply IH in Hloop; subst prev'.
    apply decode_token_ok in E.
    destruct E as [(-> & _ & ->)
                  |[(Hdot & n & Hn & _ & ->)|(Hdot & f & _ & _ & ->)]];
      unfold token_integers; simpl.
    + reflexivity.
    + rewrite Hdot, Hn; simpl.
      fold (token_integers ms).
      destruct (token_integers ms) as [|z l]; [reflexivity|].
      change (last (z :: l) n = last (z :: l) prev).
      apply last_cons_default.
    + rewrite Hdot; reflexivity.
Qed.

End Tokens.

(* ================================================================== *)
(** * Lemmas on numeric literals without a minus sign *)
(* ================================================================== *)

Section Literals.

Lemma contains_In (c : ascii) (m : string) :
  contains c m = true <-> In c (list_ascii_of_string m).
Proof.
  induction m as [|d m IH]; simpl.
  - split; [discriminate|intros []].
  - rewrite orb_true_iff, IH, Ascii.eqb_eq; tauto.
Qed.

Lemma lstrip_In (c : ascii) (l : list ascii) : In c (lstrip l) -> In c l.
Proof.
  induction l as [|d l IH]; simpl; [auto|].
  destruct (is_space d); [right; auto|auto].
Qed.

Lemma lstrip_keeps (c : ascii) (l : list ascii) :
  is_space c = false -> In c l -> In c (lstrip l).
Proof.
  intros Hc; induction l as [|d l IH]; simpl; [auto|].
  destruct (is_space d) eqn:Hd; [|auto].
  intros [->|Hin]; [congruence|auto].
Qed.

Lemma strip_In (c : ascii) (l : list ascii) : In c (strip l) -> In c l.
Proof.
  unfold strip; intros H.
  apply in_rev, lstrip_In, in_rev, lstrip_In in H; exact H.
Qed.

Lemma strip_keeps (c : ascii) (l : list ascii) :
  is_space c = false -> In c l -> In c (strip l).
Proof.
  unfold strip; intros Hc H.
  apply in_rev; rewrite rev_involutive.
  apply lstrip_keeps; [exact Hc|].
  apply in_rev; rewrite rev_involutive.
  apply lstrip_keeps; assumption.
Qed.

Lemma remove_underscores_In (c : ascii) (l0 l : list ascii) (prev : ascii) :
  remove_underscores prev l0 = Some l -> In c l -> In c l0.
Proof.
  revert prev l; induction l0 as [|d l0 IH]; intros prev l; simpl.
  - destruct (Ascii.eqb prev "_"); [discriminate|].
    intros [= <-] [].
  - destruct (Ascii.eqb d "_").
    + destruct (is_digit prev); [|discriminate].
      intros H Hin; right; apply (IH _ _ H Hin).
    + destruct (Ascii.eqb prev "_" && negb (is_digit d)); [discriminate|].
      destruct (remove_underscores d l0) as [l'|] eqn:E; [|discriminate].
      simpl; intros [= <-] [->|Hin]; [left; reflexivity|].
      right; apply (IH _ _ E Hin).
Qed.

Lemma remove_underscores_keeps (c : ascii) (l0 l : list ascii)
      (prev : ascii) :
  Ascii.eqb c "_" = false ->
  remove_underscores prev l0 = Some l -> In c l0 -> In c l.
Proof.
  intros Hc; revert prev l; induction l0 as [|d l0 IH]; intros prev l; simpl.
  - intros _ [].
  - destruct (Ascii.eqb d "_") eqn:Hd.
    + destruct (is_digit prev); [|discriminate].
      intros H [->|Hin]; [congruence|apply (IH _ _ H Hin)].
    + destruct (Ascii.eqb prev "_" && negb (is_digit d)); [discriminate|].
      destruct (remove_underscores d l0) as [l'|] eqn:E; [|discriminate].
      simpl; intros [= <-] [->|Hin]; [left; reflexivity|].
      right; apply (IH _ _ E Hin).
Qed.

(** Without a minus sign in the text, no sign is negative. *)
Lemma take_sign_positive (l l1 : list ascii) (neg : bool) :
  ~ In "-"%char l -> take_sign l = (neg, l1) -> neg = false.
Proof.
  intros Hno; destruct l as [|c l]; simpl; [intros [= <- _]; reflexivity|].
  destruct (Ascii.eqb_spec c "-") as [->|_].
  - exfalso; apply Hno; left; reflexivity.
  - destruct (Ascii.eqb c "+"); intros [= <- _]; reflexivity.
Qed.

Lemma take_sign_In (c : ascii) (l l1 : list ascii) (neg : bool) :
  take_sign l = (neg, l1) -> In c l1 -> In c l.
Proof.
  destruct l as [|d l]; simpl; [intros [= _ <-]; auto|].
  destruct (Ascii.eqb d "-"); [intros [= _ <-] H; right; exact H|].
  destruct (Ascii.eqb d "+"); intros [= _ <-] H; [right|]; exact H.
Qed.

Lemma take_sign_keeps_point (l l1 : list ascii) (neg : bool) :
  take_sign l = (neg, l1) -> In "."%char l -> In "."%char l1.
Proof.
  destruct l as [|d l]; simpl; [intros [= _ <-]; auto|].
  destruct (Ascii.eqb_spec d "-") as [->|_];
    [intros [= _ <-] [E|H]; [discriminate E|exact H]|].
  destruct (Ascii.eqb_spec d "+") as [->|_]; intros [= _ <-];
    [intros [E|H]; [discriminate E|exact H]|auto].
Qed.

Lemma span_digits_digits (l ds r : list ascii) :
  span_digits l = (ds, r) -> Forall (fun c => is_digit c = true) ds.
Proof.
  revert ds r; induction l as [|c l IH]; intros ds r; simpl.
  - intros [= <- _]; constructor.
  - destruct (is_digit c) eqn:Hc; [|intros [= <- _]; constructor].
    destruct (span_digits l) as [ds' r'].
    intros [= <- _]; constructor; [exact Hc|apply (IH _ _ eq_refl)].
Qed.

Lemma digit_value_nonneg (c : ascii) : is_digit c = true -> 0 <= digit_value c.
Proof.
  unfold is_digit, digit_value; rewrite andb_true_iff, !Nat.leb_le; lia.
Qed.

Lemma digits_value_nonneg (ds : list ascii) :
  Forall (fun c => is_digit c = true) ds -> 0 <= digits_value ds.
Proof.
  intros HF; unfold digits_value.
  assert (H : forall acc, 0 <= acc ->
                0 <= fold_left (fun acc c => 10 * acc + digit_value c) ds acc).
  { induction HF as [|c ds Hc _ IH]; intros acc Hacc; cbn [fold_left];
      [exact Hacc|].
    apply IH; apply digit_value_nonneg in Hc; lia. }
  apply H; lia.
Qed.

(** [int] of a text without a minus sign is not negative. *)
Lemma int_nonneg (m : string) (n : Z) :
  contains "-" m = false -> int m = Ok n -> 0 <= n.
Proof.
  intros Hno; unfold int.
  destruct (remove_underscores _ _) as [l|] eqn:Hl; [|discriminate].
  destruct (take_sign l) as [neg l1] eqn:Hs.
  assert (Hneg : neg = false).
  { apply (@take_sign_positive l l1 neg); [|exact Hs]; intros Hin.
    eapply remove_underscores_In in Hin; [|exact Hl].
    apply strip_In, contains_In in Hin; congruence. }
  subst neg.
  destruct (span_digits l1) as [[|d ds] [|r rs]] eqn:Hd; try discriminate.
  destruct (max_str_digits <? _)%nat; [discriminate|].
  intros [= <-]; apply digits_value_nonneg.
  eapply span_digits_digits; exact Hd.
Qed.

End Literals.

(* ================================================================== *)
(** * Lemmas on the floats of literals *)
(* ================================================================== *)

Section Floats.

Lemma shr_1_nonneg (mrs : shr_record) :
  0 <= shr_m mrs -> 0 <= shr_m (shr_1 mrs).
Proof.
  destruct mrs as [m r s]; destruct m as [|[p|p|]|p]; simpl; lia.
Qed.

Lemma iter_pos_invariant (A : Type) (P : A -> Prop) (f : A -> A) :
  (forall x, P x -> P (f x)) ->
  forall (p : positive) (x : A), P x -> P (iter_pos f p x).
Proof.
  intros Hf; induction p as [p IH|p IH|]; intros x Hx; simpl; auto.
Qed.

Lemma shr_nonneg (mrs : shr_record) (e n : Z) :
  0 <= shr_m mrs -> 0 <= shr_m (fst (shr mrs e n)).
Proof.
  intros H; unfold shr; destruct n as [|p|p]; simpl; auto.
  apply (@iter_pos_invariant _ (fun mrs => 0 <= shr_m mrs));
    auto using shr_1_nonneg.
Qed.

Lemma shr_fexp_nonneg (m e : Z) (l : location) :
  0 <= m -> 0 <= shr_m (fst (shr_fexp prec emax m e l)).
Proof.
  intros H; unfold shr_fexp; apply shr_nonneg.
  destruct l as [|[| |]]; exact H.
Qed.

Lemma round_nearest_even_nonneg (m : Z) (l : location) :
  0 <= m -> 0 <= round_nearest_even m l.
Proof.
  intros H; unfold round_nearest_even.
  destruct l as [|[| |]]; try destruct (Z.even m); lia.
Qed.

(** Rounding a non-negative mantissa with the sign bit clear gives no
    NaN and no negative number. *)
Lemma binary_round_aux_nonneg (mx ex : Z) (lx : location) :
  0 <= mx ->
  nonnegative_float (binary_round_aux prec emax false mx ex lx) = true.
Proof.
  intros H; unfold binary_round_aux.
  pose proof (shr_fexp_nonneg ex lx H) as H1.
  destruct (shr_fexp prec emax mx ex lx) as [mrs' e']; simpl in H1.
  pose proof (@shr_fexp_nonneg
                (round_nearest_even (shr_m mrs') (loc_of_shr_record mrs'))
                e' loc_Exact
                (round_nearest_even_nonneg (loc_of_shr_record mrs') H1)) as H2.
  destruct (shr_fexp prec emax _ e' loc_Exact) as [mrs'' e'']; simpl in H2.
  destruct (shr_m mrs'') as [|m|m]; [reflexivity| |lia].
  destruct (e'' <=? emax - prec); reflexivity.
Qed.

Lemma SFdiv_finite_nonneg (mx my : positive) (ex ey : Z) :
  nonnegative_float
    (SFdiv prec emax (S754_finite false mx ex) (S754_finite false my ey))
  = true.
Proof.
  unfold SFdiv, SFdiv_core_binary.
  set (s := ex - ey - _).
  set (m' := match s with Z0 => Z.pos mx | Z.pos _ => Z.shiftl (Z.pos mx) s
                     | Z.neg _ => 0 end).
  assert (Hm : 0 <= m').
  { subst m'; destruct s; [lia|apply Z.shiftl_nonneg; lia|lia]. }
  destruct (Z.div_eucl m' (Z.pos my)) as [q r] eqn:E.
  assert (Hq : q = m' / Z.pos my) by (unfold Z.div; rewrite E; reflexivity).
  apply binary_round_aux_nonneg; subst q; apply Z.div_pos; lia.
Qed.

Lemma binary64_of_decimal_nonneg (m e : Z) :
  nonnegative_float (binary64_of_decimal false m e) = true.
Proof.
  unfold binary64_of_decimal; destruct m; try reflexivity.
  apply SFdiv_finite_nonneg.
Qed.

(** A text with a decimal point names neither an infinity nor a NaN. *)
Lemma inf_or_nan_point (neg : bool) (l : list ascii) :
  In "."%char l -> inf_or_nan neg l = None.
Proof.
  intros Hin; unfold inf_or_nan.
  destruct l as [|c1 [|c2 [|c3 [|c4 [|c5 [|c6 [|c7 [|c8 [|c9 l]]]]]]]]];
    try reflexivity;
    simpl in Hin;
    repeat (destruct Hin as [Hin|Hin];
            [subst;
             repeat match goal with
               | |- context [is_letter ?a ?x] =>
                   is_var x; destruct (is_letter a x)
               end; reflexivity|]);
    destruct Hin.
Qed.

(** [float] of a text with a decimal point and without a minus sign is
    neither a NaN nor negative. *)
Lemma float_nonneg (m : string) (f : spec_float) :
  contains "-" m = false -> contains "." m = true -> float m = Ok f ->
  nonnegative_float f = true.
Proof.
  intros Hno Hdot; unfold float.
  destruct (remove_underscores _ _) as [l|] eqn:Hl; [|discriminate].
  destruct (take_sign l) as [neg l1] eqn:Hs.
  assert (Hneg : neg = false).
  { apply (@take_sign_positive l l1 neg); [|exact Hs]; intros Hin.
    eapply remove_underscores_In in Hin; [|exact Hl].
    apply strip_In, contains_In in Hin; congruence. }
  subst neg.
  assert (Hpoint : In "."%char l1).
  { apply (@take_sign_keeps_point l l1 false Hs).
    eapply remove_underscores_keeps; [reflexivity|exact Hl|].
    apply strip_keeps; [reflexivity|]; apply contains_In; exact Hdot. }
  rewrite (inf_or_nan_point false _ Hpoint).
  destruct (span_digits l1) as [ip r1].
  destruct (match r1 with [] => _ | c :: r => _ end) as [fp r2].
  destruct (ip ++ fp); [discriminate|].
  destruct (exponent r2); [|discriminate].
  intros [= <-]; apply binary64_of_decimal_nonneg.
Qed.

(** On such floats [f > 0.5] is the negation of [f <= 0.5]. *)
Lemma gt_half_not_le (f : spec_float) :
  nonnegative_float f = true -> float_gt f half = negb (SFleb f half).
Proof.
  destruct f as [s|s| |s m e]; simpl; try discriminate;
    destruct s; try discriminate; intros _; try reflexivity.
  unfold float_gt, SFltb, SFleb, SFcompare, half.
  rewrite (Z.compare_antisym (-53) e).
  destruct (-53 ?= e); try reflexivity.
  pose proof (Pos.compare_cont_antisym 4503599627370496 m Eq) as H.
  change (CompOpp Eq) with Eq in H; rewrite <- H.
  destruct (Pos.compare_cont Eq 4503599627370496 m); reflexivity.
Qed.

End Floats.

(* ================================================================== *)
(** * Lemmas on the shape after the whole stack *)
(* ================================================================== *)

Section Stack.

Lemma plane_after_app (a : list Layer) (l : Layer) (size : Z) :
  plane_after (a ++ [l]) size
  = if is_pool l then (plane_after a size + 2 * 1 - 2) / 2 + 1
    else plane_after a size + 2.
Proof. unfold plane_after; rewrite fold_left_app; reflexivity. Qed.

Lemma plane_after_positive (layers : list Layer) (size : Z) :
  1 <= size -> 1 <= plane_after layers size.
Proof.
  revert size; induction layers as [|l layers IH]; intros size Hs;
    [exact Hs|].
  change (1 <= plane_after layers
                 (if is_pool l then (size + 2 * 1 - 2) / 2 + 1 else size + 2)).
  apply IH; destruct (is_pool l); [apply pool_out_positive; exact Hs|lia].
Qed.

(** Without a pooling layer every layer adds 2. *)
Lemma plane_after_blocks (layers : list Layer) (size : Z) :
  Forall (fun l => is_pool l = false) layers ->
  plane_after layers size = size + 2 * Z.of_nat (List.length layers).
Proof.
  intros HF; revert size; induction HF as [|l layers Hl _ IH]; intros size.
  - simpl; lia.
  - change (plane_after layers
              (if is_pool l then (size + 2 * 1 - 2) / 2 + 1 else size + 2)
            = size + 2 * Z.of_nat (S (List.length layers))).
    rewrite Hl, IH; lia.
Qed.

Lemma runs_to_conv (layers : list Layer) (prev n : Z) (dev : torch.device) :
  1 <= n -> runs_to layers prev ->
  runs_to (layers ++ [Conv (ConvolutionBlock.__init__ prev n dev)]) n.
Proof.
  intros Hn Hr N H W HH HW.
  rewrite Sequential_forward_app, (Hr N H W HH HW), !plane_after_app.
  cbn [bind Sequential_forward Layer_forward is_pool].
  pose proof (plane_after_positive layers HH).
  pose proof (plane_after_positive layers HW).
  rewrite block_forward_shape by lia; reflexivity.
Qed.

Lemma runs_to_pool (layers : list Layer) (prev : Z) (l : Layer) :
  1 <= prev -> runs_to layers prev ->
  l = MaxPool2d pool_2_2_1 \/ l = AvgPool2d pool_2_2_1 ->
  runs_to (layers ++ [l]) prev.
Proof.
  intros Hp Hr Hl N H W HH HW.
  rewrite Sequential_forward_app, (Hr N H W HH HW), !plane_after_app.
  pose proof (plane_after_positive layers HH).
  pose proof (plane_after_positive layers HW).
  destruct Hl as [-> | ->]; cbn [bind Sequential_forward Layer_forward is_pool];
    rewrite pool_forward_shape by lia; reflexivity.
Qed.

(** A block without output channel raises on a four-axis input. *)
Lemma block_forward_no_output (c_in c_out : Z) (dev : torch.device)
      (N C H W : Z) :
  c_out < 1 -> 0 <= H -> 0 <= W ->
  ConvolutionBlock.forward (ConvolutionBlock.__init__ c_in c_out dev)
                           [N; C; H; W]
  = Raise (RuntimeError ConvNoOutputChannel).
Proof.
  intros Hc HH HW; unfold ConvolutionBlock.forward, to.
  rewrite padding_shape by assumption.
  cbn [bind ConvolutionBlock.conv ConvolutionBlock.bn
       ConvolutionBlock.__init__ Conv2d_forward].
  unfold conv_plane; cbn [out_channels in_channels cv_kernel cv_stride
                          cv_padding].
  destruct (Z.ltb_spec c_out 1); [reflexivity|lia].
Qed.

Lemma runs_to_no_output (layers : list Layer) (prev n : Z)
      (dev : torch.device) :
  n < 1 -> runs_to layers prev ->
  stops (layers ++ [Conv (ConvolutionBlock.__init__ prev n dev)]).
Proof.
  intros Hn Hr N H W HH HW.
  rewrite Sequential_forward_app, (Hr N H W HH HW).
  cbn [bind Sequential_forward Layer_forward].
  pose proof (plane_after_positive layers HH).
  pose proof (plane_after_positive layers HW).
  rewrite block_forward_no_output by lia; reflexivity.
Qed.

Lemma stops_app (layers more : list Layer) :
  stops layers -> stops (layers ++ more).
Proof.
  intros Hs N H W HH HW.
  rewrite Sequential_forward_app, (Hs N H W HH HW); reflexivity.
Qed.

Lemma runs_to_stem (dev : torch.device) :
  runs_to [Conv (ConvolutionBlock.__init__ 3 16 dev)] 16.
Proof.
  intros N H W HH HW.
  cbn [bind Sequential_forward Layer_forward].
  rewrite block_forward_shape by lia; reflexivity.
Qed.

(** With positive widths the loop keeps the closed form of the shape. *)
Lemma decode_loop_runs_to (ms : list string) (self self' : t)
      (prev prev' : Z) :
  Forall positive_width ms ->
  kernel_size self = (2, 2) -> pool_stride self = (2, 2) ->
  1 <= prev -> runs_to (architecture self) prev ->
  decode_loop self prev ms = (self', Ok prev') ->
  1 <= prev' /\ runs_to (architecture self') prev'.
Proof.
  intros HQ Hk Hs Hp Hr Hloop.
  enough (kernel_size self' = (2, 2) /\ pool_stride self' = (2, 2)
          /\ 1 <= prev' /\ runs_to (architecture self') prev')
    as (_ & _ & H1 & H2) by (split; assumption).
  revert Hloop.
  apply (@decode_loop_invariant
           (fun self prev => kernel_size self = (2, 2)
                             /\ pool_stride self = (2, 2)
                             /\ 1 <= prev
                             /\ runs_to (architecture self) prev)
           positive_width); [|exact HQ|repeat split; assumption].
  clear; intros self prev m self' prev' (Hk & Hs & Hp & Hr) Hpos Htok.
  apply decode_token_ok in Htok.
  destruct Htok as [(_ & -> & ->)
                   |[(Hdot & n & Hn & -> & ->)|(_ & f & _ & -> & ->)]].
  - auto.
  - pose proof (Hpos n Hdot Hn) as Hn1.
    cbn [kernel_size pool_stride architecture append].
    repeat split; auto using runs_to_conv.
  - cbn [kernel_size pool_stride architecture append].
    repeat split; auto.
    apply runs_to_pool; [exact Hp|exact Hr|].
    unfold pool_for, pool_2_2_1; rewrite Hk, Hs.
    destruct (float_gt f half); auto.
Qed.

(** Once the layers raise, whatever the loop appends changes nothing. *)
Lemma decode_loop_stops (ms : list string) (self self' : t) (prev : Z)
      (r : result Z) :
  stops (architecture self) ->
  decode_loop self prev ms = (self', r) ->
  stops (architecture self').
Proof.
  intros Hs Hloop; apply decode_loop_extends in Hloop.
  destruct Hloop as [added ->]; apply stops_app; exact Hs.
Qed.

(** A width below 1 among the integer tokens makes the layers raise. *)
Lemma decode_loop_stops_at (ms : list string) (self self' : t)
      (prev prev' : Z) :
  Exists (fun n => n < 1) (token_integers ms) ->
  kernel_size self = (2, 2) -> pool_stride self = (2, 2) ->
  1 <= prev -> runs_to (architecture self) prev ->
  decode_loop self prev ms = (self', Ok prev') ->
  stops (architecture self').
Proof.
  revert self prev; induction ms as [|m ms IH];
    intros self prev Hex Hk Hs Hp Hr; [inversion Hex|].
  simpl; destruct (decode_token self prev m) as [self1 [prev1|e]] eqn:E;
    [|discriminate].
  intros Hloop; apply decode_token_ok in E.
  unfold token_integers in Hex; simpl in Hex; fold (token_integers ms) in Hex.
  destruct E as [(-> & -> & ->)
                |[(Hdot & n & Hn & -> & ->)|(Hdot & f & _ & -> & ->)]].
  - simpl in Hex; apply (IH _ _ Hex Hk Hs Hp Hr Hloop).
  - rewrite Hdot, Hn in Hex; simpl in Hex.
    destruct (Z.lt_ge_cases n 1) as [Hlt|Hge].
    + eapply decode_loop_stops; [|exact Hloop].
      cbn [architecture append]; apply runs_to_no_output; assumption.
    + inversion Hex as [? ? Hbad|? ? Hrest]; subst; [lia|].
      refine (IH (append self _) n Hrest Hk Hs _ _ Hloop); [lia|].
      cbn [architecture append]; apply runs_to_conv; [lia|exact Hr].
  - rewrite Hdot in Hex; simpl in Hex.
    refine (IH (append self _) prev Hex Hk Hs Hp _ Hloop).
    cbn [architecture append]; apply runs_to_pool; [exact Hp|exact Hr|].
    unfold pool_for, pool_2_2_1; rewrite Hk, Hs.
    destruct (float_gt f half); auto.
Qed.

End Stack.

(* ================================================================== *)
(** * Lemmas on the object that [_decode] leaves *)
(* ================================================================== *)

Section Frame.

Lemma extend_nil (self : t) : extend self [] = self.
Proof. destruct self; unfold extend; simpl; rewrite app_nil_r; reflexivity. Qed.

Lemma extend_extend (self : t) (a b : list Layer) :
  extend (extend self a) b = extend self (a ++ b).
Proof. unfold extend; simpl; rewrite app_assoc; reflexivity. Qed.

(** What the loop appends, and how it ends, depends on the tokens, on
    [prev] and on the device and pooling fields of the object, not on
    the layers the object holds. *)
Lemma decode_loop_frame (ms : list string) (d : torch.device)
      (ks ps : Z * Z) (prev : Z) :
  exists added r,
    forall self, device self = d -> kernel_size self = ks ->
                 pool_stride self = ps ->
                 decode_loop self prev ms = (extend self added, r).
Proof.
  revert prev; induction ms as [|m ms IH]; intros prev.
  - exists [], (Ok prev); intros self _ _ _; simpl.
    rewrite extend_nil; reflexivity.
  - simpl; unfold decode_token.
    destruct (String.eqb m "-").
    + destruct (IH prev) as (added & r & H).
      exists added, r; intros self Hd Hk Hs; apply H; assumption.
    + destruct (convert m) as [[n|f]|e].
      * destruct (IH n) as (added & r & H).
        exists (Conv (ConvolutionBlock.__init__ prev n d) :: added), r.
        intros self Hd Hk Hs.
        change (append self
                  (Conv (ConvolutionBlock.__init__ prev n (device self))))
          with (extend self
                  [Conv (ConvolutionBlock.__init__ prev n (device self))]).
        rewrite H, extend_extend, Hd by assumption; reflexivity.
      * destruct (IH prev) as (added & r & H).
        exists ((if float_gt f half
                 then MaxPool2d (mkPool2d ks ps (1, 1))
                 else AvgPool2d (mkPool2d ks ps (1, 1))) :: added), r.
        intros self Hd Hk Hs.
        change (append self ?l) with (extend self [l]).
        rewrite H, extend_extend, Hk, Hs by assumption; reflexivity.
      * exists [], (Raise e); intros self _ _ _.
        rewrite extend_nil; reflexivity.
Qed.

End Frame.

(* ================================================================== *)
(** * Further properties of the code *)
(* ================================================================== *)

Section MoreHelpers.

(** The fields of a constructed object. *)
Lemma init_fields (encoding : string) (dev : torch.device) (self : t) :
  __init__ encoding dev = Ok self ->
  device self = dev /\ enc self = encoding
  /\ kernel_size self = (2, 2) /\ pool_stride self = (2, 2)
  /\ net self = Some (architecture self).
Proof.
  unfold __init__, _decode; simpl.
  destruct (decode_loop _ 16 _) as [self0 [prev|e]] eqn:E; [|discriminate].
  intros [= <-]; simpl.
  apply decode_loop_fields in E; destruct E as (-> & -> & -> & ->).
  repeat split.
Qed.

Lemma token_integers_nonneg (encoding : string) :
  Forall (fun n => 0 <= n) (integer_tokens encoding).
Proof.
  unfold integer_tokens, token_integers; apply Forall_flat_map.
  apply Forall_forall; intros m Hin.
  destruct (contains "." m); [constructor|].
  destruct (int m) as [n|e] eqn:Hn; [|constructor].
  constructor; [|constructor].
  apply (@int_nonneg m n); [apply (split_no_sep _ _ _ Hin)|exact Hn].
Qed.

Lemma chain_nonneg (prev : Z) (widths : list Z) :
  0 <= prev -> Forall (fun n => 0 <= n) widths ->
  Forall (fun p => 0 <= fst p /\ 0 <= snd p) (chain prev widths).
Proof.
  intros Hp HF; revert prev Hp; induction HF as [|a l Ha _ IH];
    intros prev Hp; simpl; constructor; auto.
Qed.

End MoreHelpers.

(** X1. No token of [enc.split('-')] is the delimiter, so the [continue]
    of the loop is never taken: a turn of the loop on a token of the
    encoding either raises, with the object unchanged, or appends exactly
    one layer. *)
Theorem delimiter_guard_never_fires (encoding m : string) (self : t)
        (prev : Z) :
  In m (split "-" encoding) ->
  m <> "-"
  /\ decode_token self prev m
     = match convert m with
       | Raise e => (self, Raise e)
       | Ok (PyInt n) =>
           (append self
              (Conv (ConvolutionBlock.__init__ prev n (device self))),
            Ok n)
       | Ok (PyFloat f) => (append self (pool_for self f), Ok prev)
       end.
Proof.
  intros Hin; pose proof (token_not_delimiter _ _ Hin) as Hne.
  split; [intros ->; discriminate Hne|].
  unfold decode_token; rewrite Hne.
  destruct (convert m) as [[n|f]|e]; reflexivity.
Qed.

(** X2. When decoding succeeds the layer list is the stem followed by one
    layer per token, in token order: the layer of a token is a pooling
    layer exactly when the token holds a decimal point, a convolution
    block otherwise. *)
Theorem layers_follow_tokens (encoding : string) (dev : torch.device)
        (self : t) :
  __init__ encoding dev = Ok self ->
  exists rest,
    architecture self = Conv (ConvolutionBlock.__init__ 3 16 dev) :: rest
    /\ map is_pool rest = map (contains ".") (split "-" encoding)
    /\ List.length (architecture self)
       = S (List.length (split "-" encoding)).
Proof.
  intros Hinit; apply init_ok in Hinit.
  destruct Hinit as (self0 & prev & Hloop & -> & _).
  apply decode_loop_kinds in Hloop; [|apply tokens_not_delimiter].
  destruct Hloop as (added & Hadd & Hk); simpl in Hadd.
  exists added; rewrite Hadd; repeat split; [exact Hk|].
  simpl; f_equal.
  rewrite <- (length_map is_pool), Hk; apply length_map.
Qed.

(** X3. No integer token is negative, since a token cannot hold a minus
    sign; so every channel count of a decoded convolution block is at
    least 0. *)
Theorem decoded_widths_nonnegative (encoding : string) (dev : torch.device)
        (self : t) :
  __init__ encoding dev = Ok self ->
  Forall (fun n => 0 <= n) (integer_tokens encoding)
  /\ Forall (fun p => 0 <= fst p /\ 0 <= snd p)
            (conv_channels (architecture self)).
Proof.
  intros Hinit; apply init_ok in Hinit.
  destruct Hinit as (self0 & prev & Hloop & -> & _).
  apply decode_loop_chain in Hloop; rewrite Hloop; simpl.
  split; [apply token_integers_nonneg|].
  constructor; [simpl; lia|].
  apply chain_nonneg; [lia|apply token_integers_nonneg].
Qed.

(** X4. Construction succeeds only if every token of the encoding
    converts ([float] accepts it if it holds a decimal point, [int]
    accepts it otherwise); and when every token converts, construction
    succeeds or raises the error of a block constructor that the runtime
    could not complete. *)
Theorem construction_success_condition
        (construct : list Layer -> Z -> Z -> option exn)
        (encoding : string) (dev : torch.device) :
  ((exists self, WithRuntime.__init__ construct encoding dev = Ok self) ->
   Forall (fun m => exists v, convert m = Ok v) (split "-" encoding))
  /\ (Forall (fun m => exists v, convert m = Ok v) (split "-" encoding) ->
      (exists self, WithRuntime.__init__ construct encoding dev = Ok self)
      \/ (exists e layers a n,
             WithRuntime.__init__ construct encoding dev = Raise e
             /\ construct layers a n = Some e)).
Proof.
  unfold WithRuntime.__init__, WithRuntime._decode.
  change (architecture (fresh encoding dev)) with (@nil Layer).
  change (enc (append (fresh encoding dev)
                 (Conv (ConvolutionBlock.__init__ 3 16
                          (device (fresh encoding dev))))))
    with encoding.
  split.
  - intros [self Hinit].
    destruct (construct [] 3 16); [discriminate Hinit|].
    destruct (WithRuntime.decode_loop construct _ 16 (split "-" encoding))
      as [self0 [prev|e]] eqn:E; [|discriminate Hinit].
    eapply runtime_loop_ok_converts;
      [apply tokens_not_delimiter|exact E].
  - intros Hc.
    destruct (construct [] 3 16) as [e|] eqn:Hstem.
    + right; exists e, [], 3, 16; auto.
    + destruct (@runtime_loop_converts construct (split "-" encoding)
                  (append (fresh encoding dev)
                     (Conv (ConvolutionBlock.__init__ 3 16
                              (device (fresh encoding dev))))) 16
                  (tokens_not_delimiter encoding) Hc)
        as [(self' & prev' & H)|(self' & e & layers & a & n & H & He)];
        rewrite H.
      * left; eexists; reflexivity.
      * right; exists e, layers, a, n; auto.
Qed.

(** X5. Every convolution block of a decoded model is built by the
    constructor on the device of the model: it carries that device, a
    3x3 convolution of stride 1 and padding 1 between its two channel
    counts, and a batch normalisation over its output channels. *)
Theorem decoded_blocks_configuration (encoding : string)
        (dev : torch.device) (self : t) (block : ConvolutionBlock.t) :
  __init__ encoding dev = Ok self ->
  In (Conv block) (architecture self) ->
  device self = dev
  /\ ConvolutionBlock.device block = dev
  /\ ConvolutionBlock.conv block
     = mkConv2d (ConvolutionBlock.c_in block) (ConvolutionBlock.c_out block)
                (3, 3) (1, 1) (1, 1)
  /\ ConvolutionBlock.bn block
     = mkBatchNorm2d (ConvolutionBlock.c_out block).
Proof.
  intros Hinit Hin; apply init_ok in Hinit.
  destruct Hinit as (self0 & prev & Hloop & Harch & _ & Hdev).
  apply decode_loop_blocks in Hloop.
  - rewrite <- Harch in Hloop; rewrite Forall_forall in Hloop.
    destruct (Hloop _ Hin) as (a & n & ->); simpl.
    repeat split; exact Hdev.
  - simpl; constructor; [exists 3, 16; reflexivity|constructor].
Qed.

(** X6. For a decoded model whose integer tokens are all at least 1 and
    an input [N, 3, H, W] with H and W at least 1, the layer stack
    returns [N, C, H', W'] where C is the last integer token (16 when
    there is none) and H', W' come from H, W by adding 2 at each
    convolution block and mapping S to floor(S / 2) + 1 at each pooling
    layer, in list order. *)
Theorem stack_output_shape (encoding : string) (dev : torch.device)
        (self : t) (N H W : Z) :
  __init__ encoding dev = Ok self ->
  Forall (fun n => 1 <= n) (integer_tokens encoding) ->
  1 <= H -> 1 <= W ->
  Sequential_forward (architecture self) [N; 3; H; W]
  = Ok [N; last (integer_tokens encoding) 16;
        plane_after (architecture self) H;
        plane_after (architecture self) W].
Proof.
  intros Hinit Hpos HH HW; apply init_ok in Hinit.
  destruct Hinit as (self0 & prev & Hloop & -> & _).
  pose proof (decode_loop_prev _ _ _ Hloop) as Hprev.
  apply decode_loop_runs_to in Hloop;
    [|apply positive_widths_tokens; exact Hpos
     |reflexivity|reflexivity|lia|apply runs_to_stem].
  destruct Hloop as (_ & Hr).
  rewrite (Hr N H W HH HW), Hprev; reflexivity.
Qed.

(** X7. With no pooling token the plane grows by 2 at every block: for an
    encoding of k integer tokens, all at least 1, the stack returns
    [N, C, H + 2 (k + 1), W + 2 (k + 1)]. *)
Theorem integer_encoding_inflates (encoding : string) (dev : torch.device)
        (self : t) (N H W : Z) :
  __init__ encoding dev = Ok self ->
  Forall (fun m => contains "." m = false) (split "-" encoding) ->
  Forall (fun n => 1 <= n) (integer_tokens encoding) ->
  1 <= H -> 1 <= W ->
  let k := Z.of_nat (List.length (split "-" encoding)) in
  Sequential_forward (architecture self) [N; 3; H; W]
  = Ok [N; last (integer_tokens encoding) 16;
        H + 2 * (k + 1); W + 2 * (k + 1)].
Proof.
  intros Hinit Hint Hpos HH HW k; apply init_ok in Hinit.
  destruct Hinit as (self0 & prev & Hloop & -> & _).
  pose proof (decode_loop_prev _ _ _ Hloop) as Hprev.
  pose proof (@decode_loop_kinds _ _ _ _ _
                (tokens_not_delimiter encoding) Hloop)
    as (added & Hadd & Hk).
  apply decode_loop_runs_to in Hloop;
    [|apply positive_widths_tokens; exact Hpos
     |reflexivity|reflexivity|lia|apply runs_to_stem].
  destruct Hloop as (_ & Hr).
  rewrite (Hr N H W HH HW), Hprev.
  assert (Hnp : Forall (fun l => is_pool l = false) (architecture self0)).
  { rewrite Hadd; simpl; constructor; [reflexivity|].
    clear - Hk Hint; revert added Hk.
    induction Hint as [|m ms Hm _ IH]; intros [|l added] Hk;
      try discriminate; constructor.
    - simpl in Hk; injection Hk as Hl _; congruence.
    - apply IH; simpl in Hk; injection Hk as _ Hk; exact Hk. }
  assert (Hlen : Z.of_nat (List.length (architecture self0)) = k + 1).
  { rewrite Hadd; simpl List.length.
    rewrite <- (length_map is_pool added), Hk, length_map.
    subst k; lia. }
  rewrite !(plane_after_blocks _ Hnp), Hlen; reflexivity.
Qed.

(** X8. When an integer token of a decoded model is below 1 (that is,
    0), the forward pass raises on every input [N, 3, H, W] with H and W
    at least 1, at the convolution without output channel. *)
Theorem nonpositive_width_cannot_run (encoding : string)
        (dev : torch.device) (self : t) (N H W : Z) :
  __init__ encoding dev = Ok self ->
  Exists (fun n => n < 1) (integer_tokens encoding) ->
  1 <= H -> 1 <= W ->
  forward self [N; 3; H; W] = Raise (RuntimeError ConvNoOutputChannel).
Proof.
  intros Hinit Hex HH HW; apply init_ok in Hinit.
  destruct Hinit as (self0 & prev & Hloop & _ & Hnet & _).
  apply decode_loop_stops_at in Hloop;
    [|exact Hex|reflexivity|reflexivity|lia|apply runs_to_stem].
  unfold forward; rewrite Hnet, (Hloop N H W HH HW); reflexivity.
Qed.

(** X9. The forward pass of a decoded model rejects an input that does
    not have exactly four axes, at the unpacking in the stem's padding,
    and a four-axis input with a channel count other than 3, at the
    stem's convolution; the layers after the stem are not reached. *)
Theorem model_forward_rejects (encoding : string) (dev : torch.device)
        (self : t) :
  __init__ encoding dev = Ok self ->
  (forall x : Tensor,
      List.length x <> 4%nat ->
      forward self x = Raise (ValueError_unpack (List.length (skipn 2 x))))
  /\ (forall N C H W : Z,
         0 <= H -> 0 <= W -> C <> 3 ->
         forward self [N; C; H; W] = Raise (RuntimeError (ConvChannels 3 C))).
Proof.
  intros Hinit; apply init_ok in Hinit.
  destruct Hinit as (self0 & prev & Hloop & _ & Hnet & _).
  apply decode_loop_extends in Hloop; destruct Hloop as [added Hadd].
  simpl in Hadd; rewrite Hadd in Hnet.
  split.
  - intros x Hlen; unfold forward; rewrite Hnet.
    cbn [Sequential_forward Layer_forward].
    rewrite block_forward_rank by exact Hlen; reflexivity.
  - intros N C H W HH HW HC; unfold forward; rewrite Hnet.
    cbn [Sequential_forward Layer_forward].
    rewrite block_forward_channels by (assumption || lia); reflexivity.
Qed.

(** X11. [_decode] run a second time on a constructed model returns
    normally and appends the whole layer list again, a second stem
    included, to [self.architecture]; [self.net] keeps the list of the
    construction. *)
Theorem decode_again_duplicates (encoding : string) (dev : torch.device)
        (self : t) :
  __init__ encoding dev = Ok self ->
  exists self2,
    _decode self = (self2, Ok tt)
    /\ architecture self2 = architecture self ++ architecture self
    /\ net self2 = Some (architecture self).
Proof.
  intros Hinit.
  destruct (init_fields _ _ Hinit) as (Hd & He & Hk & Hs & Hnet).
  apply init_ok in Hinit.
  destruct Hinit as (self0 & prev & Hloop & Harch & _).
  destruct (decode_loop_frame (split "-" encoding) dev (2, 2) (2, 2) 16)
    as (added & r & Hframe).
  rewrite (Hframe (with_stem (fresh encoding dev)) eq_refl eq_refl eq_refl)
    in Hloop.
  injection Hloop as Hself0 Hr; subst r.
  assert (Hall : architecture self
                 = Conv (ConvolutionBlock.__init__ 3 16 dev) :: added)
    by (rewrite Harch, <- Hself0; reflexivity).
  exists (extend (with_stem self) added).
  unfold _decode; cbn [enc append].
  change (append self (Conv (ConvolutionBlock.__init__ 3 16 (device self))))
    with (with_stem self).
  rewrite He, (Hframe (with_stem self) Hd Hk Hs).
  split; [reflexivity|]; cbn [extend with_stem append architecture net].
  split; [|exact Hnet].
  rewrite Hd, <- app_assoc, Hall; reflexivity.
Qed.

(** X12. The float of a pooling token is never a NaN and never negative,
    since a token with a decimal point names no NaN and holds no minus
    sign; so the loop appends an average pooling exactly when the float
    is at most 0.5, a max pooling otherwise. *)
Theorem pooling_token_rule (encoding m : string) (self : t)
        (f : spec_float) :
  In m (split "-" encoding) ->
  contains "." m = true ->
  float m = Ok f ->
  nonnegative_float f = true
  /\ pool_for self f
     = if SFleb f half
       then AvgPool2d (mkPool2d (kernel_size self) (pool_stride self) (1, 1))
       else MaxPool2d (mkPool2d (kernel_size self) (pool_stride self) (1, 1)).
Proof.
  intros Hin Hdot Hf.
  assert (Hnn : nonnegative_float f = true)
    by (apply (@float_nonneg m f); [apply (split_no_sep _ _ _ Hin)| |];
        assumption).
  split; [exact Hnn|].
  unfold pool_for; rewrite (gt_half_not_le _ Hnn).
  destruct (SFleb f half); reflexivity.
Qed.

(* ================================================================== *)
(** * Instances of the further properties *)
(* ================================================================== *)

Lemma delimiter_guard_never_fires_witness :
  In "0.9" (split "-" "32-0.9-64")
  /\ "0.9" <> "-"
  /\ decode_token example_state 32 "0.9"
     = (append example_state (pool_for example_state float_0_9), Ok 32).
Proof.
  assert (H1 : In "0.9" (split "-" "32-0.9-64"))
    by (right; left; reflexivity).
  split; [exact H1|].
  exact (@delimiter_guard_never_fires "32-0.9-64" "0.9" example_state 32 H1).
Defined.

Lemma layers_follow_tokens_witness :
  __init__ "32-0.9-64" "cpu" = Ok example_model
  /\ exists rest,
      architecture example_model
      = Conv (ConvolutionBlock.__init__ 3 16 "cpu") :: rest
      /\ map is_pool rest = map (contains ".") (split "-" "32-0.9-64")
      /\ List.length (architecture example_model)
         = S (List.length (split "-" "32-0.9-64")).
Proof.
  assert (H1 : __init__ "32-0.9-64" "cpu" = Ok example_model)
    by reflexivity.
  split; [exact H1|].
  exact (@layers_follow_tokens "32-0.9-64" "cpu" example_model H1).
Defined.

Lemma decoded_widths_nonnegative_witness :
  __init__ "32-0.9-64" "cpu" = Ok example_model
  /\ Forall (fun n => 0 <= n) (integer_tokens "32-0.9-64")
  /\ Forall (fun p => 0 <= fst p /\ 0 <= snd p)
            (conv_channels (architecture example_model)).
Proof.
  assert (H1 : __init__ "32-0.9-64" "cpu" = Ok example_model)
    by reflexivity.
  split; [exact H1|].
  exact (@decoded_widths_nonnegative "32-0.9-64" "cpu" example_model H1).
Defined.

Lemma construction_success_condition_witness :
  Forall (fun m => exists v, convert m = Ok v) (split "-" "32-0.9-64")
  /\ ((exists self,
          WithRuntime.__init__ WithRuntime.int64_runtime "32-0.9-64" "cpu"
          = Ok self)
      \/ (exists e layers a n,
             WithRuntime.__init__ WithRuntime.int64_runtime "32-0.9-64" "cpu"
             = Raise e
             /\ WithRuntime.int64_runtime layers a n = Some e)).
Proof.
  assert (H1 : Forall (fun m => exists v, convert m = Ok v)
                      (split "-" "32-0.9-64"))
    by (repeat constructor; eexists; reflexivity).
  split; [exact H1|].
  exact (proj2 (construction_success_condition WithRuntime.int64_runtime
                  "32-0.9-64" "cpu") H1).
Defined.

Lemma decoded_blocks_configuration_witness :
  __init__ "32-0.9-64" "cpu" = Ok example_model
  /\ In (Conv (ConvolutionBlock.__init__ 16 32 "cpu"))
        (architecture example_model)
  /\ ConvolutionBlock.device (ConvolutionBlock.__init__ 16 32 "cpu") = "cpu"
  /\ ConvolutionBlock.conv (ConvolutionBlock.__init__ 16 32 "cpu")
     = mkConv2d 16 32 (3, 3) (1, 1) (1, 1).
Proof.
  assert (H1 : __init__ "32-0.9-64" "cpu" = Ok example_model)
    by reflexivity.
  assert (H2 : In (Conv (ConvolutionBlock.__init__ 16 32 "cpu"))
                  (architecture example_model))
    by (right; left; reflexivity).
  destruct (@decoded_blocks_configuration "32-0.9-64" "cpu" example_model
              (ConvolutionBlock.__init__ 16 32 "cpu") H1 H2)
    as (_ & Hd & Hc & _).
  repeat split; assumption.
Defined.

Lemma stack_output_shape_witness :
  __init__ "32-0.9-64" "cpu" = Ok example_model
  /\ Forall (fun n => 1 <= n) (integer_tokens "32-0.9-64")
  /\ Sequential_forward (architecture example_model) [1; 3; 32; 32]
     = Ok [1; last (integer_tokens "32-0.9-64") 16;
           plane_after (architecture example_model) 32;
           plane_after (architecture example_model) 32].
Proof.
  assert (H1 : __init__ "32-0.9-64" "cpu" = Ok example_model)
    by reflexivity.
  assert (H2 : Forall (fun n => 1 <= n) (integer_tokens "32-0.9-64")).
  { change (Forall (fun n => 1 <= n) [32; 64]); repeat constructor; lia. }
  assert (H3 : 1 <= 32) by lia.
  split; [exact H1|split; [exact H2|]].
  exact (@stack_output_shape "32-0.9-64" "cpu" example_model 1 32 32
           H1 H2 H3 H3).
Defined.

Lemma integer_encoding_inflates_witness :
  __init__ "8-16" "cpu" = Ok example_integers
  /\ Forall (fun m => contains "." m = false) (split "-" "8-16")
  /\ Forall (fun n => 1 <= n) (integer_tokens "8-16")
  /\ Sequential_forward (architecture example_integers) [1; 3; 32; 32]
     = Ok [1; last (integer_tokens "8-16") 16;
           32 + 2 * (Z.of_nat (List.length (split "-" "8-16")) + 1);
           32 + 2 * (Z.of_nat (List.length (split "-" "8-16")) + 1)].
Proof.
  assert (H1 : __init__ "8-16" "cpu" = Ok example_integers) by reflexivity.
  assert (H2 : Forall (fun m => contains "." m = false) (split "-" "8-16"))
    by (repeat constructor).
  assert (H3 : Forall (fun n => 1 <= n) (integer_tokens "8-16")).
  { change (Forall (fun n => 1 <= n) [8; 16]); repeat constructor; lia. }
  assert (H4 : 1 <= 32) by lia.
  repeat (split; [assumption|]).
  exact (@integer_encoding_inflates "8-16" "cpu" example_integers 1 32 32
           H1 H2 H3 H4 H4).
Defined.

Lemma nonpositive_width_cannot_run_witness :
  __init__ "0" "cpu" = Ok example_zero
  /\ Exists (fun n => n < 1) (integer_tokens "0")
  /\ forward example_zero [1; 3; 32; 32]
     = Raise (RuntimeError ConvNoOutputChannel).
Proof.
  assert (H1 : __init__ "0" "cpu" = Ok example_zero) by reflexivity.
  assert (H2 : Exists (fun n => n < 1) (integer_tokens "0")).
  { change (Exists (fun n => n < 1) [0]); constructor; lia. }
  assert (H3 : 1 <= 32) by lia.
  split; [exact H1|split; [exact H2|]].
  exact (@nonpositive_width_cannot_run "0" "cpu" example_zero 1 32 32
           H1 H2 H3 H3).
Defined.

Lemma model_forward_rejects_witness :
  __init__ "32-0.9-64" "cpu" = Ok example_model
  /\ forward example_model [3; 32; 32]
     = Raise (ValueError_unpack (List.length (skipn 2 [3; 32; 32])))
  /\ forward example_model [1; 1; 32; 32]
     = Raise (RuntimeError (ConvChannels 3 1)).
Proof.
  assert (H1 : __init__ "32-0.9-64" "cpu" = Ok example_model)
    by reflexivity.
  assert (H2 : List.length [3; 32; 32] <> 4%nat) by discriminate.
  assert (H3 : 0 <= 32) by lia.
  assert (H4 : 1 <> 3) by lia.
  destruct (@model_forward_rejects "32-0.9-64" "cpu" example_model H1)
    as (Hrank & Hchan).
  split; [exact H1|].
  split; [exact (Hrank [3; 32; 32] H2)|exact (Hchan 1 1 32 32 H3 H3 H4)].
Defined.

Lemma decode_again_duplicates_witness :
  __init__ "8-0.9" "cpu" = Ok example_built
  /\ exists self2,
      _decode example_built = (self2, Ok tt)
      /\ architecture self2
         = architecture example_built ++ architecture example_built
      /\ net self2 = Some (architecture example_built).
Proof.
  assert (H1 : __init__ "8-0.9" "cpu" = Ok example_built) by reflexivity.
  split; [exact H1|].
  exact (@decode_again_duplicates "8-0.9" "cpu" example_built H1).
Defined.

Lemma pooling_token_rule_witness :
  In "0.9" (split "-" "32-0.9-64")
  /\ contains "." "0.9" = true
  /\ float "0.9" = Ok float_0_9
  /\ nonnegative_float float_0_9 = true
  /\ pool_for example_state float_0_9
     = if SFleb float_0_9 half
       then AvgPool2d (mkPool2d (kernel_size example_state)
                         (pool_stride example_state) (1, 1))
       else MaxPool2d (mkPool2d (kernel_size example_state)
                         (pool_stride example_state) (1, 1)).
Proof.
  assert (H1 : In "0.9" (split "-" "32-0.9-64"))
    by (right; left; reflexivity).
  assert (H2 : contains "." "0.9" = true) by reflexivity.
  assert (H3 : float "0.9" = Ok float_0_9) by reflexivity.
  split; [exact H1|split; [exact H2|split; [exact H3|]]].
  exact (@pooling_token_rule "32-0.9-64" "0.9" example_state float_0_9
           H1 H2 H3).
Defined.
